(** * Email output plugin (email/email_output.go): model and properties

    The plugin forwards each record of its input channel as an email.  With a
    configured relay ([hostport]) every mail goes through that relay; without
    one the recipients are grouped by domain, the MX hosts of each domain are
    looked up once and kept in the package-level cache [mxAddrs], and the MX
    hosts of a domain are tried in order until one accepts the mail.

    The embedding is shallow.  The network (DNS and the SMTP servers) is an
    oracle threaded through the code as explicit state, and every call made to
    it is appended to a log together with its answer, so that statements about
    which steps were performed, in which order and with which arguments are
    statements about that log.  The mutex [mxAddrsLock] is a boolean of the
    state; locking a held mutex never returns. *)

From stdpp Require Import gmap strings list fin_maps pretty.
From Stdlib Require Import ZArith.

Local Open Scope string_scope.
Local Open Scope Z_scope.
Local Open Scope list_scope.
Set Warnings "-register-all".

(** ** Go strings *)

(** [strings.HasPrefix]. *)
Fixpoint HasPrefix (s prefix : string) : bool :=
  match prefix with
  | EmptyString => true
  | String c p =>
      match s with
      | EmptyString => false
      | String d s' => if Ascii.eqb c d then HasPrefix s' p else false
      end
  end.

Fixpoint Index_from (s substr : string) (i : Z) : Z :=
  if HasPrefix s substr then i
  else match s with
       | EmptyString => -1
       | String _ s' => Index_from s' substr (i + 1)
       end.

(** [strings.Index]: position of the first instance of [substr] in [s], or
    [-1] when there is none. *)
Definition Index (s substr : string) : Z := Index_from s substr 0.

Fixpoint string_drop (n : nat) (s : string) : string :=
  match n with
  | O => s
  | S n' => match s with EmptyString => EmptyString | String _ s' => string_drop n' s' end
  end.

Fixpoint string_take (n : nat) (s : string) : string :=
  match n with
  | O => EmptyString
  | S n' => match s with EmptyString => EmptyString | String c s' => String c (string_take n' s') end
  end.

(** [s[i:]] and [s[:i]].  Go panics when [i] is outside [0..len(s)]; every
    use below stays inside that range ([Index] returns at least [-1] and less
    than the length, and the payload is cut only when it is longer than 100). *)
Definition slice_from (s : string) (i : Z) : string := string_drop (Z.to_nat i) s.
Definition slice_to (s : string) (i : Z) : string := string_take (Z.to_nat i) s.

(** [len(s)], in bytes. *)
Definition len (s : string) : Z := Z.of_nat (String.length s).

(** Whether the byte [c] occurs in [s]. *)
Fixpoint has_char (c : Ascii.ascii) (s : string) : bool :=
  match s with
  | EmptyString => false
  | String d s' => if Ascii.eqb c d then true else has_char c s'
  end.

(** The bytes "@" and ":". *)
Definition at_sign : Ascii.ascii := Ascii.ascii_of_nat 64.
Definition colon : Ascii.ascii := Ascii.ascii_of_nat 58.

(** ** Data *)

(** [time.Duration]: a count of nanoseconds. *)
Definition Duration := Z.
Definition Second : Duration := 1000000000.

(** [var DefaultTimeout = 30 * time.Second] *)
Definition DefaultTimeout : Duration := 30 * Second.

(** [net.MX] *)
Record MX := { Host : string; Pref : Z }.

(** [smtp.Auth], as built by [smtp.PlainAuth]. *)
Record Auth := PlainAuth
  { auth_identity : string; auth_username : string; auth_password : string; auth_host : string }.

(** [tls.Config] *)
Record TLSConfig := { InsecureSkipVerify : bool }.

(** Go [error] values.  Errors of the network libraries are opaque; the
    errors built with [fmt.Errorf] keep the format they were built with and
    its arguments. *)
Inductive error :=
| LibError (msg : string)
    (* an error returned by net or net/smtp *)
| ErrLookupMX (host : string) (err : error)
    (* "error looking up MX record for %s: %s" *)
| ErrTestSend (from : string) (tos : list string) (mxs : list MX) (err : option error)
    (* "error test sending mail from %s to %s with %s: %s" *)
| ErrSend (from : string) (tos : list string) (mxs : list MX) (err : error)
    (* "error sending mail from %s to %s with %s: %s" *)
| ErrRun (err : error).
    (* "error sending email: %s" *)

(** The calls of one SMTP conversation, in the vocabulary of net/smtp. *)
Inductive Step :=
| Dial (addr : string) (timeout : Duration)   (* net.DialTimeout("tcp", addr, timeout) *)
| NewClient (host : string)                   (* smtp.NewClient(conn, host) *)
| Hello (localName : string)                  (* c.Hello *)
| StartTLS (config : option TLSConfig)        (* c.StartTLS *)
| DoAuth (a : Auth)                           (* c.Auth *)
| Mail (from : string)                        (* c.Mail *)
| Rcpt (addr : string)                        (* c.Rcpt *)
| Data                                        (* c.Data *)
| Write (msg : string)                        (* w.Write *)
| Close                                       (* w.Close *)
| Quit.                                       (* c.Quit *)

(** What the log records: an SMTP call with the error it returned ([None] is
    Go's nil), or an MX lookup with its two results. *)
Inductive Event :=
| Smtp (st : Step) (err : option error)
| Lookup (host : string) (mxs : list MX) (err : option error).

(** [EmailOutput] *)
Record EmailOutput := {
  From : string;
  To : list string;
  hostport : string;
  auth : option Auth;
  byHost : gmap string (list string);
  tlsConfig : option TLSConfig
}.

(** [EmailOutputConfig] *)
Record EmailOutputConfig := {
  Address : string;
  Username : string;
  Password : string;
  conf_From : string;
  conf_To : list string;
  NoCertCheck : bool
}.

(** The fields of a pipeline message that [Run] reads. *)
Record Message := {
  Payload : string;
  Timestamp : Z;
  Severity : Z;
  Logger : string;
  Hostname : string
}.

Definition set_byHost (o : EmailOutput) (m : gmap string (list string)) : EmailOutput :=
  {| From := From o; To := To o; hostport := hostport o; auth := auth o;
     byHost := m; tlsConfig := tlsConfig o |}.

(** ** The outside world

    Everything the plugin calls and this file does not define: the network
    behind net and net/smtp, the iteration order of a Go map, and two library
    functions whose results the plugin passes on unchanged. *)
Class Environment := {
  World : Type;
  (** the answer of the network to one SMTP call, and the world afterwards *)
  respond : World -> Step -> option error * World;
  (** [c.Extension(ext)]: whether the connected server advertises [ext] *)
  advertises : World -> string -> bool;
  (** [net.LookupMX] *)
  LookupMX : World -> string -> (list MX * option error) * World;
  (** the order in which [range] visits a map: unspecified, but every entry
      exactly once *)
  range_byHost : World -> gmap string (list string) -> list (string * list string);
  range_byHost_perm : forall w m, range_byHost w m ≡ₚ map_to_list m;
  (** the host component of [net.SplitHostPort] (its error is dropped) *)
  SplitHostPort_host : string -> string;
  (** [utils.TsTime(ts).Format(time.RFC3339)] *)
  formatTimestamp : Z -> string
}.

Section Plugin.
Context `{Env : Environment}.

(** The network and the log of the calls made to it so far. *)
Record Net := { world : World; log : list Event }.

(** The package-level state: the MX cache, its mutex, and the network. *)
Record State := {
  mxAddrs : gmap string (list MX);
  mxAddrsLock : bool;
  net : Net
}.

Definition set_net (s : State) (n : Net) : State :=
  {| mxAddrs := mxAddrs s; mxAddrsLock := mxAddrsLock s; net := n |}.

Definition set_mxAddrs (s : State) (m : gmap string (list MX)) : State :=
  {| mxAddrs := m; mxAddrsLock := mxAddrsLock s; net := net s |}.

Definition set_lock (s : State) (b : bool) : State :=
  {| mxAddrs := mxAddrs s; mxAddrsLock := b; net := net s |}.

(** A call either returns or blocks for ever on the mutex. *)
Inductive Outcome (A : Type) :=
| Returns (a : A) (s : State)
| Blocks (s : State).
Arguments Returns {A} a s.
Arguments Blocks {A} s.

Definition final_state {A} (r : Outcome A) : State :=
  match r with Returns _ s => s | Blocks s => s end.

(** [mxAddrsLock.Lock()]: sync.Mutex is not reentrant. *)
Definition Lock (s : State) : Outcome unit :=
  if mxAddrsLock s then Blocks s else Returns tt (set_lock s true).

(** [mxAddrsLock.Unlock()]; always reached after a [Lock] of the same call. *)
Definition Unlock (s : State) : State := set_lock s false.

(** ** The transport session: package-level [sendMail] *)

(** A piece of a session: it may fail, and it changes the network. *)
Definition Session := Net -> option error * Net.

Definition call (st : Step) : Session := fun n =>
  let '(r, w) := respond (world n) st in
  (r, {| world := w; log := (log n ++ [Smtp st r]) |}).

Definition skip : Session := fun n => (None, n).

(** [if err := m; err != nil { return err }; k] *)
Definition andThen (m k : Session) : Session := fun n =>
  match m n with
  | (Some e, n') => (Some e, n')
  | (None, n') => k n'
  end.

Notation "m ;; k" := (andThen m k) (at level 100, k at level 200, right associativity).

(** [if ok, _ := c.Extension(ext); ok { m }] *)
Definition ifExtension (ext : string) (m : Session) : Session := fun n =>
  if advertises (world n) ext then m n else (None, n).

(** [for _, addr := range to { c.Rcpt(addr) }] *)
Fixpoint sendMail_rcpts (to : list string) : Session :=
  match to with
  | [] => skip
  | addr :: rest => call (Rcpt addr) ;; sendMail_rcpts rest
  end.

(** [if msg != nil { c.Data(); w.Write(msg); w.Close() }] *)
Definition sendMail_data (msg : option string) : Session :=
  match msg with
  | Some m => call Data ;; call (Write m) ;; call Close
  | None => skip
  end.

Definition sendMail (addr : string) (a : option Auth) (from : string) (to : list string)
    (msg : option string) (timeout : Duration) (tlsConfig : option TLSConfig) : Session :=
  call (Dial addr timeout) ;;
  call (NewClient (SplitHostPort_host addr)) ;;
  call (Hello "localhost") ;;
  ifExtension "STARTTLS" (call (StartTLS tlsConfig)) ;;
  (match a with
   | Some a' => ifExtension "AUTH" (call (DoAuth a'))
   | None => skip
   end) ;;
  call (Mail from) ;;
  sendMail_rcpts to ;;
  sendMail_data msg ;;
  call Quit.

Definition testMail (addr : string) (a : option Auth) (from : string) (to : list string)
    (timeout : Duration) (tlsConfig : option TLSConfig) : Session :=
  sendMail addr a from to None timeout tlsConfig.

(** ** [Prepare] *)

(** The recipient's host: [tos[strings.Index(tos, "@")+1:]]. *)
Definition Prepare_host (tos : string) : string :=
  slice_from tos (Index tos "@" + 1).

(** [o.byHost[host] = append(o.byHost[host], tos)] *)
Definition Prepare_append (m : gmap string (list string)) (tos : string)
    : gmap string (list string) :=
  let host := Prepare_host tos in
  <[host := default [] (m !! host) ++ [tos]]> m.

(** Lines 92-97: the map of the recipients by host. *)
Definition Prepare_byHost (to : list string) : gmap string (list string) :=
  foldl Prepare_append ∅ to.

(** Lines 99-106: the cache read, and the lookup on a miss.  [inr] is the
    [return] of line 102, which leaves the function between [Lock] and
    [Unlock]. *)
Definition Prepare_resolve (host : string) (s : State) : Outcome (list MX + error) :=
  match Lock s with
  | Blocks s' => Blocks s'
  | Returns _ s1 =>
      match mxAddrs s1 !! host with
      | Some mxs => Returns (inl mxs) (Unlock s1)
      | None =>
          let '((mxs, err), w) := LookupMX (world (net s1)) host in
          let s2 := set_net s1 {| world := w; log := (log (net s1) ++ [Lookup host mxs err]) |} in
          match err with
          | Some e => Returns (inr (ErrLookupMX host e)) s2
          | None => Returns (inl mxs) (Unlock (set_mxAddrs s2 (<[host := mxs]> (mxAddrs s2))))
          end
      end
  end.

(** Lines 107-117: the probe of the MX hosts of one group, in order. *)
Fixpoint Prepare_mxs (o : EmailOutput) (tos : list string) (mxs : list MX)
    (err : option error) (n : Net) : (bool * option error) * Net :=
  match mxs with
  | [] => ((false, err), n)
  | mx :: rest =>
      let '(err', n') :=
        testMail (Host mx +:+ ":25") None (From o) tos (10 * Second) (tlsConfig o) n in
      match err' with
      | None => ((true, None), n')
      | Some _ => Prepare_mxs o tos rest err' n'
      end
  end.

(** Lines 98-122: the loop over the groups. *)
Fixpoint Prepare_groups (o : EmailOutput) (groups : list (string * list string))
    (err : option error) (s : State) : Outcome (option error) :=
  match groups with
  | [] => Returns None s
  | (host, tos) :: rest =>
      match Prepare_resolve host s with
      | Blocks s' => Blocks s'
      | Returns (inr e) s' => Returns (Some e) s'
      | Returns (inl mxs) s' =>
          (* [err] is assigned by the lookup, that is on a miss only *)
          let err := match mxAddrs s !! host with Some _ => err | None => None end in
          let '((ok, err'), n') := Prepare_mxs o tos mxs err (net s') in
          if ok then Prepare_groups o rest err' (set_net s' n')
          else Returns (Some (ErrTestSend (From o) tos mxs err')) (set_net s' n')
      end
  end.

Definition Prepare (o : EmailOutput) (s : State) : Outcome (option error * EmailOutput) :=
  if decide (hostport o = "") then
    let o' := set_byHost o (Prepare_byHost (To o)) in
    match Prepare_groups o' (range_byHost (world (net s)) (byHost o')) None s with
    | Blocks s' => Blocks s'
    | Returns err s' => Returns (err, o') s'
    end
  else
    let o' := set_byHost o ∅ in
    let '(err, n') :=
      testMail (hostport o) (auth o) (From o) (To o) (10 * Second) (tlsConfig o) (net s) in
    Returns (err, match err with
                  | None => set_byHost o' (<["" := To o]> (byHost o'))
                  | Some _ => o'
                  end)
            (set_net s n').

(** ** [Init] *)

Definition Init (o : EmailOutput) (conf : EmailOutputConfig) (s : State)
    : Outcome (option error * EmailOutput) :=
  let i := Index (Address conf) ":" in
  let host := if (0 <=? i) then slice_to (Address conf) i else Address conf in
  Prepare
    {| From := conf_From conf;
       To := conf_To conf;
       hostport :=
         if decide (Address conf = "") then ""
         else if (0 <=? i) then Address conf else Address conf +:+ ":25";
       auth :=
         if decide (Address conf = "") then auth o
         else if decide (Username conf = "") then auth o
         else Some (PlainAuth "" (Username conf) (Password conf) host);
       byHost := byHost o;
       tlsConfig :=
         if NoCertCheck conf then Some {| InsecureSkipVerify := true |} else tlsConfig o |}
    s.

(** ** The method [EmailOutput.sendMail] *)

(** Lines 190-199: the MX hosts of one group, in order. *)
Fixpoint sendMail_mxs (o : EmailOutput) (tos : list string) (body : option string)
    (mxs : list MX) (err : option error) (n : Net) : option error * Net :=
  match mxs with
  | [] => (err, n)
  | mx :: rest =>
      let '(err', n') :=
        sendMail (Host mx +:+ ":25") None (From o) tos body 30 (tlsConfig o) n in
      match err' with
      | None => (None, n')
      | Some _ => sendMail_mxs o tos body rest err' n'
      end
  end.

(** Lines 186-204: the loop over the groups. *)
Fixpoint sendMail_groups (o : EmailOutput) (body : option string)
    (groups : list (string * list string)) (s : State) : Outcome (option error) :=
  match groups with
  | [] => Returns None s
  | (host, tos) :: rest =>
      match Lock s with
      | Blocks s' => Blocks s'
      | Returns _ s1 =>
          let mxs := default [] (mxAddrs s1 !! host) in
          let s2 := Unlock s1 in
          let '(err, n') := sendMail_mxs o tos body mxs None (net s2) in
          match err with
          | Some e => Returns (Some (ErrSend (From o) tos mxs e)) (set_net s2 n')
          | None => sendMail_groups o body rest (set_net s2 n')
          end
      end
  end.

Definition EmailOutput_sendMail (o : EmailOutput) (body : option string) (s : State)
    : Outcome (option error) :=
  if decide (hostport o = "") then
    sendMail_groups o body (range_byHost (world (net s)) (byHost o)) s
  else
    let '(err, n') :=
      sendMail (hostport o) (auth o) (From o) (To o) body DefaultTimeout (tlsConfig o) (net s) in
    Returns err (set_net s n').

(** ** [Run] *)

(** The subject's payload excerpt: [payload[:100]] when [len(payload) > 100]. *)
Definition Run_excerpt (payload : string) : string :=
  if (100 <? len payload) then slice_to payload 100 else payload.

(** [fmt.Sprintf("Subject: %s [%d] %s@%s: ", ...)] *)
Definition Run_subject (m : Message) : string :=
  "Subject: " +:+ formatTimestamp (Timestamp m) +:+ " [" +:+ pretty (Severity m) +:+ "] "
    +:+ Logger m +:+ "@" +:+ Hostname m +:+ ": ".

Definition CRLF : string := String (Ascii.ascii_of_nat 13) (String (Ascii.ascii_of_nat 10) "").

(** What [Run] has written into [body] when it calls [o.sendMail]. *)
Definition Run_body (m : Message) : string :=
  Run_subject m +:+ Run_excerpt (Payload m) +:+ (CRLF +:+ CRLF) +:+ Payload m.

(** The loop over the input channel, given as the list of the messages it
    delivers before it is closed. *)
Fixpoint Run (o : EmailOutput) (inChan : list Message) (s : State) : Outcome (option error) :=
  match inChan with
  | [] => Returns None s
  | pack :: rest =>
      match EmailOutput_sendMail o (Some (Run_body pack)) s with
      | Blocks s' => Blocks s'
      | Returns (Some e) s' => Returns (Some (ErrRun e)) s'
      | Returns None s' => Run o rest s'
      end
  end.

End Plugin.

Arguments Returns {Env A} a s.
Arguments Blocks {Env A} s.
Arguments final_state {Env A} r.

(** ** Runs of a process

    What a process does with the plugin, one call after the other; a call that
    blocks leaves the state in which it blocked. *)
Inductive Op :=
| OpInit (o : EmailOutput) (conf : EmailOutputConfig)
| OpPrepare (o : EmailOutput)
| OpSendMail (o : EmailOutput) (body : option string)
| OpRun (o : EmailOutput) (inChan : list Message).

Definition exec `{Env : Environment} (op : Op) (s : State) : State :=
  match op with
  | OpInit o conf => final_state (Init o conf s)
  | OpPrepare o => final_state (Prepare o s)
  | OpSendMail o body => final_state (EmailOutput_sendMail o body s)
  | OpRun o inChan => final_state (Run o inChan s)
  end.

Definition execs `{Env : Environment} (ops : list Op) (s : State) : State :=
  foldl (fun s op => exec op s) s ops.

(** ** Scripted environments

    A world that is a clock: the number of network calls made so far.  The
    answer to a call may depend on the clock, so that a server or a resolver
    can fail first and work later.  Maps are visited in the order of
    [map_to_list]. *)
Definition scripted (smtp : nat -> Step -> option error) (ext : string -> bool)
    (dns : nat -> string -> list MX * option error) : Environment :=
  {| World := nat;
     respond w st := (smtp w st, S w);
     advertises _ e := ext e;
     LookupMX w host := (dns w host, S w);
     range_byHost _ m := map_to_list m;
     range_byHost_perm _ m := Permutation_refl (map_to_list m);
     SplitHostPort_host addr := slice_to addr (Index addr ":");
     formatTimestamp ts := pretty ts |}.

(** The state of a process that has made no call yet. *)
Definition initial `{Env : Environment} (w : World) : State :=
  {| mxAddrs := ∅; mxAddrsLock := false; net := {| world := w; log := [] |} |}.

(** The state of a process whose cache holds the MX hosts of one domain. *)
Definition cached `{Env : Environment} (w : World) (host : string) (mxs : list MX) : State :=
  {| mxAddrs := {[host := mxs]}; mxAddrsLock := false; net := {| world := w; log := [] |} |}.

(** Credentials for the relay of [with_relay]. *)
Definition relay_credentials : Auth := PlainAuth "" "heka" "secret" "smtp.example.com".

(** Every call is accepted, except that [Quit] is refused; the servers
    advertise every extension. *)
Definition quit_refused : Environment :=
  scripted
    (fun _ st => match st with Quit => Some (LibError "quit refused") | _ => None end)
    (fun _ => true)
    (fun _ _ => ([], None)).

(** Every call is accepted; the servers advertise no extension; every domain
    has the single MX host [mx.example.com]. *)
Definition all_accepted : Environment :=
  scripted
    (fun _ _ => None)
    (fun _ => false)
    (fun _ _ => ([{| Host := "mx.example.com"; Pref := 10 |}], None)).

(** Every call is accepted; the servers advertise every extension; every
    domain has the single MX host [mx.example.com]. *)
Definition all_advertised : Environment :=
  scripted
    (fun _ _ => None)
    (fun _ => true)
    (fun _ _ => ([{| Host := "mx.example.com"; Pref := 10 |}], None)).

(** Every call is accepted; no domain has an MX host, and the lookup reports
    no error. *)
Definition no_mx : Environment :=
  scripted (fun _ _ => None) (fun _ => false) (fun _ _ => ([], None)).


(** Only the host mx3.x.com accepts connections; every domain has the four
    MX hosts mx1.x.com ... mx4.x.com, in this order. *)
Definition x_com_mxs : list MX :=
  [ {| Host := "mx1.x.com"; Pref := 10 |}; {| Host := "mx2.x.com"; Pref := 20 |};
    {| Host := "mx3.x.com"; Pref := 30 |}; {| Host := "mx4.x.com"; Pref := 40 |} ].

Definition third_mx_accepts : Environment :=
  scripted
    (fun _ st =>
       match st with
       | Dial addr _ =>
           if decide (addr = "mx3.x.com:25") then None
           else Some (LibError "connection refused")
       | _ => None
       end)
    (fun _ => false)
    (fun _ _ => (x_com_mxs, None)).

(** No host accepts connections; every domain has the MX hosts of
    [x_com_mxs]. *)
Definition no_connection : Environment :=
  scripted
    (fun _ st =>
       match st with
       | Dial _ _ => Some (LibError "connection refused")
       | _ => None
       end)
    (fun _ => false)
    (fun _ _ => (x_com_mxs, None)).

(** The relay accepts the first session of nine calls and refuses every
    connection after it. *)
Definition relay_fails_later : Environment :=
  scripted
    (fun w st =>
       match st with
       | Dial _ _ => if (w <? 9)%nat then None else Some (LibError "connection refused")
       | _ => None
       end)
    (fun _ => false)
    (fun _ _ => ([], None)).

(** Three short messages. *)
Definition message (payload : string) : Message :=
  {| Payload := payload; Timestamp := 0; Severity := 6; Logger := "syslog";
     Hostname := "web1" |}.

(** A plugin without relay and with one recipient, before and after
    [Prepare] has grouped the recipients. *)
Definition one_recipient (rcpt : string) : EmailOutput :=
  {| From := "heka@example.org"; To := [rcpt]; hostport := ""; auth := None;
     byHost := ∅; tlsConfig := None |}.

Definition one_recipient_prepared (rcpt : string) : EmailOutput :=
  set_byHost (one_recipient rcpt) (Prepare_byHost [rcpt]).

(** A plugin without relay that holds credentials all the same. *)
Definition one_recipient_with_auth (rcpt : string) : EmailOutput :=
  {| From := "heka@example.org"; To := [rcpt]; hostport := "";
     auth := Some (PlainAuth "" "heka" "secret" "smtp.example.com");
     byHost := Prepare_byHost [rcpt]; tlsConfig := None |}.

(** A plugin with the relay smtp.example.com:25. *)
Definition with_relay : EmailOutput :=
  {| From := "heka@example.org"; To := ["ops@example.com"];
     hostport := "smtp.example.com:25"; auth := None;
     byHost := {[ "" := ["ops@example.com"] ]}; tlsConfig := None |}.

(** The first MX lookup fails, the later ones find mx.example.com; every
    SMTP call is accepted. *)
Definition dns_fails_once : Environment :=
  scripted
    (fun _ _ => None)
    (fun _ => false)
    (fun w _ =>
       match w with
       | O => ([], Some (LibError "no such host"))
       | S _ => ([{| Host := "mx.example.com"; Pref := 10 |}], None)
       end).

(** The domain y.com cannot be resolved; every other domain has the single
    MX host [mx.example.com]; every SMTP call is accepted. *)
Definition y_com_unresolvable : Environment :=
  scripted
    (fun _ _ => None)
    (fun _ => false)
    (fun _ host =>
       if decide (host = "y.com") then ([], Some (LibError "no such host"))
       else ([{| Host := "mx.example.com"; Pref := 10 |}], None)).

(** The server of the first session accepts everything up to the end of the
    data phase and refuses [Quit]; from the tenth call on every call is
    accepted.  Every domain has the MX hosts of [x_com_mxs]. *)
Definition first_quit_refused : Environment :=
  scripted
    (fun w st =>
       match st with
       | Quit => if (w <? 9)%nat then Some (LibError "quit refused") else None
       | _ => None
       end)
    (fun _ => false)
    (fun _ _ => (x_com_mxs, None)).

(** A server that advertises STARTTLS from the start and AUTH only on a
    connection that was upgraded to TLS; every call is accepted.  The world
    records whether the connection is upgraded. *)
Definition auth_after_tls : Environment :=
  {| World := bool;
     respond w st :=
       (None, match st with Dial _ _ => false | StartTLS _ => true | _ => w end);
     advertises w e := if decide (e = "AUTH") then w else true;
     LookupMX w host := (([], None), w);
     range_byHost _ m := map_to_list m;
     range_byHost_perm _ m := Permutation_refl (map_to_list m);
     SplitHostPort_host addr := slice_to addr (Index addr ":");
     formatTimestamp ts := pretty ts |}.

(** ** Reading the log *)

(** The call was answered without an error. *)
Definition accepted (ev : Event) : bool :=
  match ev with Smtp _ None => true | _ => false end.

(** The event is an SMTP call, and the call satisfies [P]. *)
Definition smtp_only (P : Step -> bool) (ev : Event) : bool :=
  match ev with Smtp st _ => P st | Lookup _ _ _ => false end.

(** The steps of the data phase: [c.Data], [w.Write], [w.Close]. *)
Definition body_step (st : Step) : bool :=
  match st with Data | Write _ | Close => true | _ => false end.

Definition is_dial (st : Step) : bool :=
  match st with Dial _ _ => true | _ => false end.

Definition is_quit (st : Step) : bool :=
  match st with Quit => true | _ => false end.

(** The connections opened: address and timeout of every [Dial], in order. *)
Fixpoint dials (evs : list Event) : list (string * Duration) :=
  match evs with
  | [] => []
  | Smtp (Dial addr timeout) _ :: rest => (addr, timeout) :: dials rest
  | _ :: rest => dials rest
  end.

(** The address and the timeout with which the MX host [mx] is dialled. *)
Definition mx_dial (timeout : Duration) (mx : MX) : string * Duration :=
  (Host mx +:+ ":25", timeout).

(** The hosts whose MX records were looked up, in order. *)
Fixpoint lookups (evs : list Event) : list string :=
  match evs with
  | [] => []
  | Lookup host _ _ :: rest => host :: lookups rest
  | _ :: rest => lookups rest
  end.

(** Every SMTP call of the event satisfies [P]; a lookup is no SMTP call. *)
Definition smtp_all (P : Step -> bool) (ev : Event) : bool :=
  match ev with Smtp st _ => P st | Lookup _ _ _ => true end.

(** The SMTP calls of a log, in order. *)
Fixpoint steps (evs : list Event) : list Step :=
  match evs with
  | [] => []
  | Smtp st _ :: rest => st :: steps rest
  | Lookup _ _ _ :: rest => steps rest
  end.

(** The recipients declared and the bodies written by a list of calls. *)
Fixpoint rcpts (sts : list Step) : list string :=
  match sts with
  | [] => []
  | Rcpt addr :: rest => addr :: rcpts rest
  | _ :: rest => rcpts rest
  end.

Fixpoint writes (sts : list Step) : list string :=
  match sts with
  | [] => []
  | Write msg :: rest => msg :: writes rest
  | _ :: rest => writes rest
  end.

Definition is_auth (st : Step) : bool :=
  match st with DoAuth _ => true | _ => false end.

Definition is_starttls (st : Step) : bool :=
  match st with StartTLS _ => true | _ => false end.

Definition no_auth (st : Step) : bool := negb (is_auth st).

(** A call of a probe: no call of the data phase, and a connection only with
    a timeout of ten seconds. *)
Definition probe_step (st : Step) : bool :=
  negb (body_step st) &&
  match st with Dial _ timeout => timeout =? 10 * Second | _ => true end.

(** The sessions of a log that ended well: its accepted [Quit] calls. *)
Fixpoint completed (evs : list Event) : nat :=
  match evs with
  | [] => 0
  | Smtp Quit None :: rest => S (completed rest)
  | _ :: rest => completed rest
  end.

(** The call made in state [s] returned; it left the cache and the lock as
    they were, looked nothing up, and dialled no address but [addr]. *)
Definition relay_only `{Env : Environment} {A} (addr : string) (s : State)
    (r : Outcome A) : Prop :=
  exists a s' evs,
    r = Returns a s' /\
    mxAddrs s' = mxAddrs s /\
    mxAddrsLock s' = mxAddrsLock s /\
    log (net s') = log (net s) ++ evs /\
    lookups evs = [] /\
    Forall (fun d => d.1 = addr) (dials evs).

(** ** What a session appends to the log *)

Section SessionLog.
Context `{Env : Environment}.

(** [evs] is what the run of [m] from [n] appends to the log: calls that
    satisfy [P] only; all of them accepted when the run succeeds, and all but
    the last, which returned the error of the run, when it fails. *)
Record run_of (P : Step -> bool) (m : Session) (n : Net) (evs : list Event) : Prop := {
  run_log : log (m n).2 = log n ++ evs;
  run_only : forallb (smtp_only P) evs = true;
  run_shape :
    match (m n).1 with
    | None => forallb accepted evs = true
    | Some e => exists pre st, evs = pre ++ [Smtp st (Some e)] /\ forallb accepted pre = true
    end
}.

Definition session_spec (P : Step -> bool) (m : Session) : Prop :=
  forall n, exists evs, run_of P m n evs.

(** The log ends with the first refused call, or with [Quit]. *)
Definition ends_in_quit (m : Session) : Prop :=
  forall n, exists pre,
    forallb accepted pre = true /\
    forallb (smtp_only (fun st => negb (is_quit st))) pre = true /\
    ((exists q, log (m n).2 = log n ++ pre ++ [Smtp Quit q] /\ (m n).1 = q) \/
     (exists st e, is_quit st = false /\
        log (m n).2 = log n ++ pre ++ [Smtp st (Some e)] /\ (m n).1 = Some e)).

(** The network in which a session started from [n] asks for STARTTLS: the
    one left by its calls [Dial], [NewClient] and [Hello]; and the network in
    which it asks for AUTH: the one left by the [StartTLS] call, when
    STARTTLS was advertised, and the same one when it was not. *)
Definition sendMail_at_STARTTLS (addr : string) (timeout : Duration) (n : Net) : Net :=
  (call (Hello "localhost")
     (call (NewClient (SplitHostPort_host addr)) (call (Dial addr timeout) n).2).2).2.

Definition sendMail_at_AUTH (addr : string) (timeout : Duration)
    (tlsConfig : option TLSConfig) (n : Net) : Net :=
  (ifExtension "STARTTLS" (call (StartTLS tlsConfig)) (sendMail_at_STARTTLS addr timeout n)).2.

(** The calls of a session in which every call is accepted, for a server
    that advertises STARTTLS or not and AUTH or not. *)
Definition sendMail_plan (startTLS authExt : bool) (addr : string) (a : option Auth)
    (from : string) (to : list string) (msg : option string) (timeout : Duration)
    (tlsConfig : option TLSConfig) : list Step :=
  Dial addr timeout :: NewClient (SplitHostPort_host addr) :: Hello "localhost" ::
  (if startTLS then [StartTLS tlsConfig] else []) ++
  match a with
  | Some a' => if authExt then [DoAuth a'] else []
  | None => []
  end ++
  Mail from :: map Rcpt to ++
  match msg with
  | Some m => [Data; Write m; Close]
  | None => []
  end ++ [Quit].

(** The run of [m] from [n] follows [plan]: its calls are the calls of
    [plan], in order, up to the first one refused, whose error is the result;
    when none is refused they are all of [plan] and the result is success. *)
Definition follows (m : Session) (n : Net) (plan : list Step) : Prop :=
  exists evs,
    log (m n).2 = log n ++ evs /\
    steps evs `prefix_of` plan /\
    match (m n).1 with
    | None => steps evs = plan /\ forallb accepted evs = true
    | Some e => exists pre st, evs = pre ++ [Smtp st (Some e)] /\ forallb accepted pre = true
    end.

End SessionLog.

(** * Properties *)

(** Closed statements about scripted runs are settled by running them. *)
Ltac by_running := cbv zeta; repeat apply conj; vm_compute; reflexivity.

(** ** Strings *)



(** ** Grouping the recipients by host *)

Section Grouping.
Implicit Types (m : gmap string (list string)) (to : list string) (d : string).

Lemma group_foldl_lookup to : forall m d,
  foldl Prepare_append m to !! d =
    match filter (fun t => Prepare_host t = d) to with
    | [] => m !! d
    | l => Some (default [] (m !! d) ++ l)
    end.
Proof.
  induction to as [|t to IH]; intros m d; [done|].
  cbn [foldl]. rewrite IH. unfold Prepare_append at 1 2. cbn zeta.
  destruct (decide (Prepare_host t = d)) as [Hd|Hne]; [subst d|].
  - rewrite filter_cons_True by done. rewrite lookup_insert_eq. cbn [default id].
    destruct (filter _ to); [done|]. by rewrite <- app_assoc.
  - rewrite filter_cons_False by done. by rewrite lookup_insert_ne.
Qed.

Lemma Prepare_byHost_lookup to d :
  Prepare_byHost to !! d =
    match filter (fun t => Prepare_host t = d) to with
    | [] => None
    | l => Some l
    end.
Proof.
  unfold Prepare_byHost.
  rewrite group_foldl_lookup, lookup_empty. by destruct (filter _ to).
Qed.

End Grouping.

(** C7.  The recipients a@x.com, b@y.com, c@x.com are grouped into exactly the
    two groups x.com -> [a@x.com; c@x.com] and y.com -> [b@y.com].  For every
    destination list, the group of a host is the list of the recipients at
    that host in their original order (and a host without recipient has no
    group); this grouping is the [byHost] that [Prepare] leaves in the plugin
    when no relay is configured. *)
Theorem C7_grouping_by_domain :
  Prepare_byHost ["a@x.com"; "b@y.com"; "c@x.com"]
    = {[ "x.com" := ["a@x.com"; "c@x.com"]; "y.com" := ["b@y.com"] ]}
  /\ (forall (to : list string) (d : string),
        Prepare_byHost to !! d =
          match filter (fun t => Prepare_host t = d) to with
          | [] => None
          | l => Some l
          end)
  /\ (forall (Env : Environment) from to a bh tls (s : State),
        match Prepare {| From := from; To := to; hostport := ""; auth := a;
                         byHost := bh; tlsConfig := tls |} s with
        | Returns (_, o') _ => byHost o' = Prepare_byHost to
        | Blocks _ => True
        end).
Proof.
  split; [vm_compute; reflexivity|]. split; [apply Prepare_byHost_lookup|].
  intros Env from to a bh tls s. unfold Prepare. cbn [hostport To].
  rewrite decide_True by done. by destruct (Prepare_groups _ _ _ _).
Qed.

(** ** The message body *)




(** ** Logs *)

Lemma dials_app evs1 evs2 : dials (evs1 ++ evs2) = dials evs1 ++ dials evs2.
Proof.
  induction evs1 as [|[[] ?|] evs1 IH]; simpl; by rewrite ?IH.
Qed.

Lemma lookups_app evs1 evs2 : lookups (evs1 ++ evs2) = lookups evs1 ++ lookups evs2.
Proof.
  induction evs1 as [|[] evs1 IH]; simpl; by rewrite ?IH.
Qed.

Lemma dials_none evs :
  forallb (smtp_only (fun st => negb (is_dial st))) evs = true -> dials evs = [].
Proof.
  induction evs as [|[[] ?|] evs IH]; simpl; intros H; try done; by apply IH.
Qed.

Lemma lookups_none P evs : forallb (smtp_only P) evs = true -> lookups evs = [].
Proof.
  induction evs as [|[] evs IH]; simpl; intros H; try done.
  apply IH. by apply andb_true_iff in H as [_ ?].
Qed.

Lemma smtp_only_weaken (P Q : Step -> bool) evs :
  (forall st, P st = true -> Q st = true) ->
  forallb (smtp_only P) evs = true -> forallb (smtp_only Q) evs = true.
Proof.
  intros HPQ. induction evs as [|[] evs IH]; simpl; try done.
  rewrite !andb_true_iff. intros [? ?]; split; auto.
Qed.

(** ** Sessions: what a run appends to the log *)

Section Sessions.
Context `{Env : Environment}.

Notation "m ;; k" := (andThen m k) (at level 100, k at level 200, right associativity).

Lemma spec_skip P : session_spec P skip.
Proof. intros n. exists []. split; simpl; by rewrite ?app_nil_r. Qed.

Lemma spec_call P st : P st = true -> session_spec P (call st).
Proof.
  intros HP n. destruct (respond (world n) st) as [r w] eqn:Hr.
  exists [Smtp st r]. split; unfold call; rewrite ?Hr; simpl.
  - done.
  - by rewrite HP.
  - destruct r as [e|]; [|done]. by exists [], st.
Qed.

Lemma spec_andThen P m k :
  session_spec P m -> session_spec P k -> session_spec P (m ;; k).
Proof.
  intros Hm Hk n. destruct (Hm n) as [evs1 [Hl1 Ho1 Hs1]].
  destruct (m n) as [[e|] n1] eqn:Hmn; simpl in *.
  - exists evs1. split; unfold andThen; rewrite ?Hmn; done.
  - destruct (Hk n1) as [evs2 [Hl2 Ho2 Hs2]]. exists (evs1 ++ evs2).
    split; unfold andThen; rewrite ?Hmn.
    + by rewrite Hl2, Hl1, app_assoc.
    + by rewrite forallb_app, Ho1, Ho2.
    + destruct (k n1).1 as [e|].
      * destruct Hs2 as (pre & st & -> & Hpre). exists (evs1 ++ pre), st.
        by rewrite app_assoc, forallb_app, Hs1, Hpre.
      * by rewrite forallb_app, Hs1, Hs2.
Qed.

Lemma spec_ifExtension P ext m : session_spec P m -> session_spec P (ifExtension ext m).
Proof.
  intros Hm n. destruct (advertises (world n) ext) eqn:Hext.
  - destruct (Hm n) as [evs [? ? ?]]. exists evs.
    split; unfold ifExtension; rewrite ?Hext; done.
  - exists []. split; unfold ifExtension; rewrite ?Hext; simpl; by rewrite ?app_nil_r.
Qed.

Lemma spec_rcpts P to :
  (forall addr, P (Rcpt addr) = true) -> session_spec P (sendMail_rcpts to).
Proof.
  intros HP. induction to as [|addr to IH]; simpl.
  - apply spec_skip.
  - apply spec_andThen; [by apply spec_call | done].
Qed.

Lemma spec_data P msg :
  (forall m, msg = Some m -> P Data = true /\ P (Write m) = true /\ P Close = true) ->
  session_spec P (sendMail_data msg).
Proof.
  intros HP. destruct msg as [m|]; simpl; [|apply spec_skip].
  destruct (HP m eq_refl) as (? & ? & ?).
  repeat apply spec_andThen; by apply spec_call.
Qed.

Lemma spec_weaken (P Q : Step -> bool) m :
  (forall st, P st = true -> Q st = true) -> session_spec P m -> session_spec Q m.
Proof.
  intros HPQ Hm n. destruct (Hm n) as [evs [? ? ?]]. exists evs. split; try done.
  by eapply smtp_only_weaken.
Qed.

Lemma quit_call : ends_in_quit (call Quit).
Proof.
  intros n. exists []. repeat split. left.
  unfold call. destruct (respond (world n) Quit) as [q w]. by exists q.
Qed.

Lemma quit_andThen m k :
  session_spec (fun st => negb (is_quit st)) m -> ends_in_quit k -> ends_in_quit (m ;; k).
Proof.
  intros Hm Hk n. destruct (Hm n) as [evs1 [Hl1 Ho1 Hs1]].
  unfold andThen. destruct (m n) as [[e|] n1] eqn:Hmn; simpl in *.
  - destruct Hs1 as (pre & st & -> & Hpre). exists pre.
    rewrite forallb_app, andb_true_iff in Ho1. destruct Ho1 as [Ho1 Hst].
    simpl in Hst. rewrite andb_true_r in Hst. apply negb_true_iff in Hst.
    repeat split; try done. right. by exists st, e.
  - destruct (Hk n1) as (pre & Hacc & Hnq & Hcase). exists (evs1 ++ pre).
    rewrite !forallb_app, Hs1, Ho1, Hacc, Hnq. repeat split.
    destruct Hcase as [(q & Hl & Hr)|(st & e & Hst & Hl & Hr)]; [left|right].
    + exists q. by rewrite Hl, Hl1, <- !app_assoc.
    + exists st, e. by rewrite Hl, Hl1, <- !app_assoc.
Qed.

(** A session opens its connection first, and only once. *)
Lemma dial_first addr timeout k n :
  session_spec (fun st => negb (is_dial st)) k ->
  dials (log ((call (Dial addr timeout) ;; k) n).2) = dials (log n) ++ [(addr, timeout)].
Proof.
  intros Hk. unfold andThen, call.
  destruct (respond (world n) (Dial addr timeout)) as [[e|] w]; simpl.
  - by rewrite dials_app.
  - match goal with |- context [k ?n1] => destruct (Hk n1) as [evs [Hl Ho _]] end.
    rewrite Hl. simpl. rewrite !dials_app. simpl. by rewrite (dials_none evs), app_nil_r.
Qed.

End Sessions.

Ltac session_steps :=
  repeat first
    [ apply spec_skip
    | apply spec_call; reflexivity
    | apply spec_ifExtension
    | apply spec_rcpts; reflexivity
    | apply spec_data; intros ? [= <-]; repeat split; reflexivity
    | apply spec_data; intros ? [=]
    | apply spec_andThen
    | match goal with
      | |- session_spec _ (match ?a with Some _ => _ | None => _ end) => destruct a
      end ].

Section Transport.
Context `{Env : Environment}.
Implicit Types (addr from : string) (a : option Auth) (to : list string)
  (msg : option string) (timeout : Duration) (tls : option TLSConfig) (n : Net).

Lemma sendMail_spec_any addr a from to msg timeout tls :
  session_spec (fun _ => true) (sendMail addr a from to msg timeout tls).
Proof. unfold sendMail. destruct msg; session_steps. Qed.

Lemma sendMail_ends_in_quit addr a from to msg timeout tls :
  ends_in_quit (sendMail addr a from to msg timeout tls).
Proof.
  unfold sendMail.
  repeat (apply quit_andThen; [destruct msg; session_steps|]). apply quit_call.
Qed.

Lemma testMail_no_body addr a from to timeout tls :
  session_spec (fun st => negb (body_step st)) (testMail addr a from to timeout tls).
Proof. unfold testMail, sendMail. session_steps. Qed.

Lemma sendMail_dials addr a from to msg timeout tls n :
  dials (log (sendMail addr a from to msg timeout tls n).2) =
  dials (log n) ++ [(addr, timeout)].
Proof. unfold sendMail. apply dial_first. destruct msg; session_steps. Qed.

(** A session appends SMTP calls to the log, and nothing else. *)
Lemma sendMail_log addr a from to msg timeout tls n :
  exists evs, log (sendMail addr a from to msg timeout tls n).2 = log n ++ evs /\
              lookups evs = [].
Proof.
  destruct (sendMail_spec_any addr a from to msg timeout tls n) as [evs [Hl Ho _]].
  exists evs. split; [done|]. by eapply lookups_none.
Qed.

(** C2 (as amended).  A session ends in one of two ways.  Either a step before
    quit is refused: it is the last call of the session and its error is the
    result.  Or every step before quit is accepted: then quit is the last
    call, and the result of the session is the answer to quit, success when
    quit is accepted and the error of quit when it is refused. *)
Theorem C2_session_result_is_quit_result addr a from to msg timeout tls n :
  let r := sendMail addr a from to msg timeout tls n in
  exists pre,
    forallb accepted pre = true /\
    ((exists q, log r.2 = log n ++ pre ++ [Smtp Quit q] /\ r.1 = q) \/
     (exists st e, is_quit st = false /\
        log r.2 = log n ++ pre ++ [Smtp st (Some e)] /\ r.1 = Some e)).
Proof.
  intros r. destruct (sendMail_ends_in_quit addr a from to msg timeout tls n)
    as (pre & Hacc & _ & Hcase).
  by exists pre.
Qed.

(** C9 (as amended).  A probe (no body) never opens the data phase: whatever
    the servers answer, none of the calls it makes is [Data], [Write] or
    [Close]; and when every call it makes is accepted, the [Quit] that
    follows the envelope included, its result is success. *)
Theorem C9_probe_has_no_body_step addr a from to timeout tls n :
  let r := testMail addr a from to timeout tls n in
  exists evs,
    log r.2 = log n ++ evs /\
    forallb (smtp_only (fun st => negb (body_step st))) evs = true /\
    (forallb accepted evs = true -> r.1 = None).
Proof.
  intros r. destruct (testMail_no_body addr a from to timeout tls n) as [evs [Hl Ho Hs]].
  exists evs. repeat split; try done. intros Hacc. fold r in Hs.
  destruct r.1 as [e|]; [|done]. destruct Hs as (pre & st & -> & _).
  rewrite forallb_app in Hacc. simpl in Hacc. by rewrite andb_false_r in Hacc.
Qed.

End Transport.

(** C2 (as stated) fails: with a server that accepts every step of the
    session and refuses only quit, the result of the session is the error of
    quit, not success. *)
Lemma C2_counterexample :
  let r := sendMail (Env := quit_refused) "mx.example.com:25"
             (Some (PlainAuth "" "user" "secret" "mx.example.com"))
             "heka@example.org" ["ops@example.com"] (Some "hello") DefaultTimeout None
             (net (initial (Env := quit_refused) 0%nat)) in
  log r.2 =
    [ Smtp (Dial "mx.example.com:25" 30000000000) None;
      Smtp (NewClient "mx.example.com") None;
      Smtp (Hello "localhost") None;
      Smtp (StartTLS None) None;
      Smtp (DoAuth (PlainAuth "" "user" "secret" "mx.example.com")) None;
      Smtp (Mail "heka@example.org") None;
      Smtp (Rcpt "ops@example.com") None;
      Smtp Data None;
      Smtp (Write "hello") None;
      Smtp Close None;
      Smtp Quit (Some (LibError "quit refused")) ]
  /\ r.1 = Some (LibError "quit refused").
Proof. by_running. Qed.

(** C9 (as stated) fails: with a server that accepts every step of the
    envelope and refuses quit, the probe has reached the end of the envelope
    negotiation with all its steps accepted and yet returns the error of
    quit; [Prepare], probing a relay that answers so, fails. *)
Lemma C9_counterexample :
  let r := testMail (Env := quit_refused) "smtp.example.com:25" None
             "heka@example.org" ["ops@example.com"] (10 * Second) None
             (net (initial (Env := quit_refused) 0%nat)) in
  let p := Prepare (Env := quit_refused) with_relay (initial (Env := quit_refused) 0%nat) in
  log r.2 =
    [ Smtp (Dial "smtp.example.com:25" 10000000000) None;
      Smtp (NewClient "smtp.example.com") None;
      Smtp (Hello "localhost") None;
      Smtp (StartTLS None) None;
      Smtp (Mail "heka@example.org") None;
      Smtp (Rcpt "ops@example.com") None;
      Smtp Quit (Some (LibError "quit refused")) ]
  /\ r.1 = Some (LibError "quit refused")
  /\ p = Returns (Some (LibError "quit refused"), set_byHost with_relay ∅) (final_state p).
Proof. by_running. Qed.

(** A probe against servers that accept everything: connection, greeting,
    envelope and quit, and nothing of the data phase. *)
Example probe_all_accepted :
  testMail (Env := all_accepted) "mx.example.com:25" None "heka@example.org"
    ["ops@example.com"; "dev@example.com"] (10 * Second) None
    (net (initial (Env := all_accepted) 0%nat))
  = (None,
     {| world := 7%nat : @World all_accepted;
        log := [ Smtp (Dial "mx.example.com:25" 10000000000) None;
                 Smtp (NewClient "mx.example.com") None;
                 Smtp (Hello "localhost") None;
                 Smtp (Mail "heka@example.org") None;
                 Smtp (Rcpt "ops@example.com") None;
                 Smtp (Rcpt "dev@example.com") None;
                 Smtp Quit None ] |}).
Proof. by_running. Qed.

(** ** The planner: what a delivery appends to the log *)

Section Planner.
Context `{Env : Environment}.
Implicit Types (o : EmailOutput) (s : State) (n : Net) (mxs : list MX)
  (tos : list string) (body : option string).

Lemma sendMail_events addr a from to msg timeout tls n :
  exists evs, log (sendMail addr a from to msg timeout tls n).2 = log n ++ evs /\
              lookups evs = [] /\ dials evs = [(addr, timeout)].
Proof.
  destruct (sendMail_log addr a from to msg timeout tls n) as (evs & Hl & Hlk).
  exists evs. repeat split; try done.
  pose proof (sendMail_dials addr a from to msg timeout tls n) as Hd.
  rewrite Hl, dials_app in Hd. by apply app_inv_head in Hd.
Qed.

(** The hosts of a group are dialled in order, a prefix of the list. *)
Lemma sendMail_mxs_events o tos body mxs : forall err n,
  exists k evs, log (sendMail_mxs o tos body mxs err n).2 = log n ++ evs /\
                lookups evs = [] /\ dials evs = map (mx_dial 30) (take k mxs).
Proof.
  induction mxs as [|mx mxs IH]; intros err n; simpl.
  - exists 0%nat, []. by rewrite app_nil_r.
  - destruct (sendMail_events (Host mx +:+ ":25") None (From o) tos body 30 (tlsConfig o) n)
      as (evs1 & Hl1 & Hk1 & Hd1).
    destruct (sendMail _ _ _ _ _ _ _ n) as [[e|] n1]; simpl in *.
    + destruct (IH (Some e) n1) as (k & evs2 & Hl2 & Hk2 & Hd2).
      exists (S k), (evs1 ++ evs2). rewrite Hl2, Hl1, lookups_app, dials_app, Hk1, Hk2, Hd1, Hd2.
      by rewrite <- app_assoc.
    + exists 1%nat, evs1. simpl. by rewrite ?take_0.
Qed.

Lemma Prepare_mxs_events o tos mxs : forall err n,
  exists k evs, log (Prepare_mxs o tos mxs err n).2 = log n ++ evs /\
                lookups evs = [] /\ dials evs = map (mx_dial (10 * Second)) (take k mxs).
Proof.
  induction mxs as [|mx mxs IH]; intros err n; simpl.
  - exists 0%nat, []. by rewrite app_nil_r.
  - unfold testMail.
    destruct (sendMail_events (Host mx +:+ ":25") None (From o) tos None (10 * Second)
                (tlsConfig o) n) as (evs1 & Hl1 & Hk1 & Hd1).
    destruct (sendMail _ _ _ _ _ _ _ n) as [[e|] n1]; simpl in *.
    + destruct (IH (Some e) n1) as (k & evs2 & Hl2 & Hk2 & Hd2).
      exists (S k), (evs1 ++ evs2). rewrite Hl2, Hl1, lookups_app, dials_app, Hk1, Hk2, Hd1, Hd2.
      by rewrite <- app_assoc.
    + exists 1%nat, evs1. simpl. by rewrite ?take_0.
Qed.

(** A delivery without relay looks nothing up, leaves the cache as it is, and
    dials with the timeout 30 only. *)
Lemma sendMail_groups_events o body groups : forall s,
  let s' := final_state (sendMail_groups o body groups s) in
  exists evs, log (net s') = log (net s) ++ evs /\
              lookups evs = [] /\
              Forall (fun d => d.2 = 30) (dials evs) /\
              mxAddrs s' = mxAddrs s.
Proof.
  induction groups as [|[host tos] groups IH]; intros s; simpl.
  - exists []. by rewrite app_nil_r.
  - unfold Lock. destruct (mxAddrsLock s) eqn:Hlock; simpl.
    { exists []. by rewrite app_nil_r. }
    set (mxs := default [] (mxAddrs s !! host)).
    destruct (sendMail_mxs_events o tos body mxs None (net s)) as (k & evs1 & Hl1 & Hk1 & Hd1).
    destruct (sendMail_mxs o tos body mxs None (net s)) as [[e|] n1]; simpl in *.
    + exists evs1. repeat split; try done. rewrite Hd1.
      apply Forall_forall. intros d [mx [-> _]]%list_elem_of_fmap. done.
    + destruct (IH (set_net (Unlock (set_lock s true)) n1)) as (evs2 & Hl2 & Hk2 & Hd2 & Hm2).
      simpl in *. exists (evs1 ++ evs2).
      rewrite Hl2, Hl1, lookups_app, dials_app, Hk1, Hk2, Hm2, <- app_assoc.
      repeat split; try done. apply Forall_app. split; [|done]. rewrite Hd1.
      apply Forall_forall. intros d [mx [-> _]]%list_elem_of_fmap. done.
Qed.

(** C10.  A delivery without relay dials every session with the timeout 30
    (nanoseconds); a delivery through the relay dials once, with
    [DefaultTimeout], which is 30 seconds: the two differ. *)
Theorem C10_record_delivery_timeouts o body s :
  let s' := final_state (EmailOutput_sendMail o body s) in
  (if decide (hostport o = "")
   then exists evs, log (net s') = log (net s) ++ evs /\
                    Forall (fun d => d.2 = 30) (dials evs)
   else exists evs, log (net s') = log (net s) ++ evs /\
                    dials evs = [(hostport o, DefaultTimeout)])
  /\ DefaultTimeout = 30 * 1000000000
  /\ DefaultTimeout <> 30.
Proof.
  intros s'. repeat split; [|done]. subst s'. unfold EmailOutput_sendMail.
  destruct (decide (hostport o = "")) as [Hrelay|Hrelay].
  - destruct (sendMail_groups_events o body
                (range_byHost (world (net s)) (byHost o)) s) as (evs & Hl & _ & Hd & _).
    by exists evs.
  - destruct (sendMail_events (hostport o) (auth o) (From o) (To o) body DefaultTimeout
                (tlsConfig o) (net s)) as (evs & Hl & _ & Hd).
    destruct (sendMail _ _ _ _ _ _ _ (net s)) as [err n1]. by exists evs.
Qed.

(** The only entry of a map with one entry is the one [range] visits. *)
Lemma range_byHost_singleton (w : World) d tos :
  range_byHost w {[d := tos]} = [(d, tos)].
Proof.
  apply Permutation_singleton_r. rewrite range_byHost_perm. by rewrite map_to_list_singleton.
Qed.

Lemma unlock_after_lock s n :
  mxAddrsLock s = false -> set_net (Unlock (set_lock s true)) n = set_net s n.
Proof. destruct s as [m l n0]. simpl. by intros ->. Qed.

(** C6.  Let the MX hosts of a domain be mx1, mx2, mx3 followed by any others,
    and let the sessions with mx1 and mx2 fail and the session with mx3
    succeed.  Then the delivery to the group of that domain succeeds, and the
    connections it opens are those to mx1, mx2 and mx3, port 25, in this
    order, and no other.  The same holds of the probe of [Prepare]. *)
Theorem C6_failover_stops_at_first_success o d tos mx1 mx2 mx3 rest s :
  hostport o = "" ->
  mxAddrsLock s = false ->
  mxAddrs s !! d = Some (mx1 :: mx2 :: mx3 :: rest) ->
  (forall body e1 e2 n1 n2 n3,
     byHost o = {[d := tos]} ->
     sendMail (Host mx1 +:+ ":25") None (From o) tos body 30 (tlsConfig o) (net s)
       = (Some e1, n1) ->
     sendMail (Host mx2 +:+ ":25") None (From o) tos body 30 (tlsConfig o) n1
       = (Some e2, n2) ->
     sendMail (Host mx3 +:+ ":25") None (From o) tos body 30 (tlsConfig o) n2
       = (None, n3) ->
     EmailOutput_sendMail o body s = Returns None (set_net s n3) /\
     dials (log n3) =
       dials (log (net s)) ++ [mx_dial 30 mx1; mx_dial 30 mx2; mx_dial 30 mx3])
  /\
  (forall e1 e2 n1 n2 n3,
     Prepare_byHost (To o) = {[d := tos]} ->
     testMail (Host mx1 +:+ ":25") None (From o) tos (10 * Second) (tlsConfig o) (net s)
       = (Some e1, n1) ->
     testMail (Host mx2 +:+ ":25") None (From o) tos (10 * Second) (tlsConfig o) n1
       = (Some e2, n2) ->
     testMail (Host mx3 +:+ ":25") None (From o) tos (10 * Second) (tlsConfig o) n2
       = (None, n3) ->
     Prepare o s = Returns (None, set_byHost o {[d := tos]}) (set_net s n3) /\
     dials (log n3) =
       dials (log (net s)) ++
         [mx_dial (10 * Second) mx1; mx_dial (10 * Second) mx2; mx_dial (10 * Second) mx3]).
Proof.
  intros Hrelay Hlock Hmxs. split.
  - intros body e1 e2 n1 n2 n3 Hby H1 H2 H3. split.
    + unfold EmailOutput_sendMail. rewrite decide_True by done.
      rewrite Hby, range_byHost_singleton. simpl. unfold Lock. rewrite Hlock. simpl.
      rewrite Hmxs. simpl. rewrite H1, H2, H3. simpl. by rewrite unlock_after_lock.
    + pose proof (sendMail_dials (Host mx1 +:+ ":25") None (From o) tos body 30
                    (tlsConfig o) (net s)) as D1.
      pose proof (sendMail_dials (Host mx2 +:+ ":25") None (From o) tos body 30
                    (tlsConfig o) n1) as D2.
      pose proof (sendMail_dials (Host mx3 +:+ ":25") None (From o) tos body 30
                    (tlsConfig o) n2) as D3.
      rewrite H1 in D1. rewrite H2 in D2. rewrite H3 in D3. simpl in *.
      rewrite D3, D2, D1. by rewrite <- !app_assoc.
  - intros e1 e2 n1 n2 n3 Hby H1 H2 H3. split.
    + unfold Prepare. rewrite decide_True by done. simpl.
      rewrite Hby, range_byHost_singleton. simpl. unfold Prepare_resolve, Lock.
      rewrite Hlock. simpl. rewrite Hmxs. simpl. rewrite H1, H2, H3. simpl.
      by rewrite unlock_after_lock.
    + unfold testMail in *.
      pose proof (sendMail_dials (Host mx1 +:+ ":25") None (From o) tos None (10 * Second)
                    (tlsConfig o) (net s)) as D1.
      pose proof (sendMail_dials (Host mx2 +:+ ":25") None (From o) tos None (10 * Second)
                    (tlsConfig o) n1) as D2.
      pose proof (sendMail_dials (Host mx3 +:+ ":25") None (From o) tos None (10 * Second)
                    (tlsConfig o) n2) as D3.
      rewrite H1 in D1. rewrite H2 in D2. rewrite H3 in D3. simpl in *.
      rewrite D3, D2, D1. by rewrite <- !app_assoc.
Qed.

End Planner.

Lemma C6_failover_witness :
  let o := one_recipient_prepared "a@x.com" in
  let s := cached (Env := third_mx_accepts) 0%nat "x.com" x_com_mxs in
  let session host n :=
    (sendMail (Env := third_mx_accepts) (host +:+ ":25") None (From o) ["a@x.com"]
       (Some "hello") 30 (tlsConfig o) n).2 in
  let n3 := session "mx3.x.com" (session "mx2.x.com" (session "mx1.x.com" (net s))) in
  EmailOutput_sendMail o (Some "hello") s = Returns None (set_net s n3)
  /\ dials (log n3) = dials (log (net s)) ++
       [ mx_dial 30 {| Host := "mx1.x.com"; Pref := 10 |};
         mx_dial 30 {| Host := "mx2.x.com"; Pref := 20 |};
         mx_dial 30 {| Host := "mx3.x.com"; Pref := 30 |} ].
Proof.
  intros o s session n3.
  apply (proj1 (C6_failover_stops_at_first_success (Env := third_mx_accepts)
                  o "x.com" ["a@x.com"]
                  {| Host := "mx1.x.com"; Pref := 10 |} {| Host := "mx2.x.com"; Pref := 20 |}
                  {| Host := "mx3.x.com"; Pref := 30 |} [{| Host := "mx4.x.com"; Pref := 40 |}]
                  s eq_refl eq_refl eq_refl)
           (Some "hello") (LibError "connection refused") (LibError "connection refused")
           (session "mx1.x.com" (net s))
           (session "mx2.x.com" (session "mx1.x.com" (net s))));
    vm_compute; reflexivity.
Defined.

(** The same failover, run: the probe of [Prepare] and then one delivery. *)
Example failover_run :
  let s1 := final_state (Prepare (Env := third_mx_accepts) (one_recipient "a@x.com")
                           (initial (Env := third_mx_accepts) 0%nat)) in
  let r := EmailOutput_sendMail (Env := third_mx_accepts) (one_recipient_prepared "a@x.com")
             (Some "hello") s1 in
  r = Returns None (final_state r) /\
  dials (log (net (final_state r))) =
    [ ("mx1.x.com:25", 10000000000); ("mx2.x.com:25", 10000000000);
      ("mx3.x.com:25", 10000000000);
      ("mx1.x.com:25", 30); ("mx2.x.com:25", 30); ("mx3.x.com:25", 30) ] /\
  lookups (log (net (final_state r))) = ["x.com"].
Proof. by_running. Qed.

(** A delivery through the relay: one connection, dialled with 30 seconds. *)
Example relay_run :
  dials (log (net (final_state
    (EmailOutput_sendMail (Env := all_accepted) with_relay (Some "hello")
       (initial (Env := all_accepted) 0%nat)))))
  = [("smtp.example.com:25", 30000000000)].
Proof. by_running. Qed.

(** ** Groups without MX host *)

Section NoCandidate.
Context `{Env : Environment}.

(** A group whose domain has no cache entry, or an empty one, is passed over
    by [EmailOutput.sendMail] without any session and without an error... *)
Lemma sendMail_groups_no_candidate o body host tos groups s :
  mxAddrsLock s = false ->
  default [] (mxAddrs s !! host) = [] ->
  sendMail_groups o body ((host, tos) :: groups) s = sendMail_groups o body groups s.
Proof.
  intros Hlock Hmxs. simpl. unfold Lock. rewrite Hlock. simpl. rewrite Hmxs. simpl.
  f_equal. destruct s; simpl in *; by subst.
Qed.

(** ... whereas [Prepare] fails on a group whose MX list is empty. *)
Lemma Prepare_groups_no_candidate o host tos groups err s :
  mxAddrsLock s = false ->
  mxAddrs s !! host = Some [] ->
  Prepare_groups o ((host, tos) :: groups) err s
    = Returns (Some (ErrTestSend (From o) tos [] err)) s.
Proof.
  intros Hlock Hmxs. simpl. unfold Prepare_resolve, Lock. rewrite Hlock. simpl.
  rewrite Hmxs. simpl. f_equal. destruct s; simpl in *; by subst.
Qed.

(** With at least one MX host, a group is passed without error only when a
    session succeeded: the one with the last host that was tried. *)
Lemma sendMail_mxs_success o tos body mxs : forall err n n',
  sendMail_mxs o tos body mxs err n = (None, n') ->
  (mxs = [] /\ err = None) \/
  exists pre mx post n1,
    mxs = pre ++ mx :: post /\
    sendMail (Host mx +:+ ":25") None (From o) tos body 30 (tlsConfig o) n1 = (None, n').
Proof.
  induction mxs as [|mx mxs IH]; intros err n n'; simpl.
  - intros [= -> ->]. by left.
  - destruct (sendMail _ _ _ _ _ _ _ n) as [[e|] n1] eqn:Hsession.
    + intros Hrest. right.
      destruct (IH _ _ _ Hrest) as [[_ [=]]|(pre & mx' & post & n2 & -> & Hok)].
      by exists (mx :: pre), mx', post, n2.
    + intros [= <-]. right. by exists [], mx, mxs, n.
Qed.

End NoCandidate.

(** Outside the main loop.  A plugin whose groups were set by hand, without
    a [Prepare] that returned nil: the cache has no entry for example.com, or
    the empty list, and [EmailOutput.sendMail] passes the group over without
    any session.  [Prepare], on the same group with the empty list, returns an
    error, so that [Run] is not entered with such a group. *)
Example delivery_without_Prepare_passes_group_over :
  let o := one_recipient_prepared "ops@example.com" in
  let absent := initial (Env := all_accepted) 0%nat in
  let empty := cached (Env := all_accepted) 0%nat "example.com" [] in
  byHost o = {[ "example.com" := ["ops@example.com"] ]}
  /\ mxAddrs absent !! "example.com" = None
  /\ EmailOutput_sendMail o (Some "hello") absent = Returns None absent
  /\ EmailOutput_sendMail o (Some "hello") empty = Returns None empty
  /\ log (net absent) = [] /\ log (net empty) = []
  /\ Prepare (one_recipient "ops@example.com") empty
     = Returns (Some (ErrTestSend "heka@example.org" ["ops@example.com"] [] None), o) empty.
Proof. by_running. Qed.

(** ** The MX cache and its lock *)

Section Cache.
Context `{Env : Environment}.
Implicit Types (o : EmailOutput) (s : State) (host : string) (mxs : list MX).

(** The four ways through lines 99-106. *)
Lemma Prepare_resolve_locked host s :
  mxAddrsLock s = true -> Prepare_resolve host s = Blocks s.
Proof. intros Hlock. unfold Prepare_resolve, Lock. by rewrite Hlock. Qed.

Lemma Prepare_resolve_hit host s mxs :
  mxAddrsLock s = false -> mxAddrs s !! host = Some mxs ->
  Prepare_resolve host s = Returns (inl mxs) s.
Proof.
  intros Hlock Hhit. unfold Prepare_resolve, Lock. rewrite Hlock. simpl. rewrite Hhit.
  f_equal. destruct s; simpl in *; by subst.
Qed.

Lemma Prepare_resolve_miss host s mxs w :
  mxAddrsLock s = false -> mxAddrs s !! host = None ->
  LookupMX (world (net s)) host = ((mxs, None), w) ->
  Prepare_resolve host s =
    Returns (inl mxs)
      {| mxAddrs := <[host := mxs]> (mxAddrs s);
         mxAddrsLock := false;
         net := {| world := w; log := log (net s) ++ [Lookup host mxs None] |} |}.
Proof.
  intros Hlock Hmiss Hdns. unfold Prepare_resolve, Lock. rewrite Hlock. simpl.
  by rewrite Hmiss, Hdns.
Qed.

(** The failure path: the cache is as before, and the lock is still held. *)
Lemma Prepare_resolve_failure host s mxs e w :
  mxAddrsLock s = false -> mxAddrs s !! host = None ->
  LookupMX (world (net s)) host = ((mxs, Some e), w) ->
  Prepare_resolve host s =
    Returns (inr (ErrLookupMX host e))
      {| mxAddrs := mxAddrs s;
         mxAddrsLock := true;
         net := {| world := w; log := log (net s) ++ [Lookup host mxs (Some e)] |} |}.
Proof.
  intros Hlock Hmiss Hdns. unfold Prepare_resolve, Lock. rewrite Hlock. simpl.
  by rewrite Hmiss, Hdns.
Qed.

(** Entries are added to the cache, never changed or removed. *)
Lemma Prepare_resolve_mono host s :
  mxAddrs s ⊆ mxAddrs (final_state (Prepare_resolve host s)).
Proof.
  unfold Prepare_resolve, Lock. destruct (mxAddrsLock s); simpl; [done|].
  destruct (mxAddrs s !! host) as [mxs|] eqn:Hhost; simpl; [done|].
  destruct (LookupMX (world (net s)) host) as [[mxs [e|]] w]; simpl; [done|].
  by apply insert_subseteq.
Qed.

Lemma Prepare_groups_mono o groups : forall err s,
  mxAddrs s ⊆ mxAddrs (final_state (Prepare_groups o groups err s)).
Proof.
  induction groups as [|[host tos] groups IH]; intros err s; simpl; [done|].
  pose proof (Prepare_resolve_mono host s) as Hres.
  destruct (Prepare_resolve host s) as [[mxs|e] s1|s1]; simpl in *; try done.
  destruct (Prepare_mxs o tos mxs _ (net s1)) as [[[] err'] n1]; simpl; [|done].
  etrans; [exact Hres|]. apply (IH err' (set_net s1 n1)).
Qed.

Lemma Prepare_mono o s : mxAddrs s ⊆ mxAddrs (final_state (Prepare o s)).
Proof.
  unfold Prepare. destruct (decide (hostport o = "")).
  - pose proof (Prepare_groups_mono (set_byHost o (Prepare_byHost (To o)))
                  (range_byHost (world (net s)) (Prepare_byHost (To o))) None s) as H.
    simpl in *. by destruct (Prepare_groups _ _ _ _).
  - by destruct (testMail _ _ _ _ _ _ _).
Qed.

Lemma EmailOutput_sendMail_cache o body s :
  mxAddrs (final_state (EmailOutput_sendMail o body s)) = mxAddrs s.
Proof.
  unfold EmailOutput_sendMail. destruct (decide (hostport o = "")).
  - by destruct (sendMail_groups_events o body
                   (range_byHost (world (net s)) (byHost o)) s) as (evs & _ & _ & _ & ?).
  - by destruct (sendMail _ _ _ _ _ _ _ _).
Qed.

Lemma Run_cache o inChan : forall s, mxAddrs (final_state (Run o inChan s)) = mxAddrs s.
Proof.
  induction inChan as [|pack inChan IH]; intros s; simpl; [done|].
  pose proof (EmailOutput_sendMail_cache o (Some (Run_body pack)) s) as H.
  destruct (EmailOutput_sendMail _ _ _) as [[e|] s1|s1]; simpl in *; try done.
  by rewrite IH.
Qed.

Lemma exec_mono op s : mxAddrs s ⊆ mxAddrs (exec op s).
Proof.
  destruct op; simpl.
  - apply Prepare_mono.
  - apply Prepare_mono.
  - by rewrite EmailOutput_sendMail_cache.
  - by rewrite Run_cache.
Qed.

Lemma execs_mono ops : forall s, mxAddrs s ⊆ mxAddrs (execs ops s).
Proof.
  induction ops as [|op ops IH]; intros s; simpl; [done|].
  etrans; [apply (exec_mono op)|apply IH].
Qed.

(** A successful resolution leaves the list it returns in the cache. *)
Lemma Prepare_resolve_cached host s mxs s1 :
  Prepare_resolve host s = Returns (inl mxs) s1 -> mxAddrs s1 !! host = Some mxs.
Proof.
  unfold Prepare_resolve, Lock. destruct (mxAddrsLock s); simpl; [done|].
  destruct (mxAddrs s !! host) as [mxs'|] eqn:Hhost; simpl.
  - by intros [= <- <-].
  - destruct (LookupMX (world (net s)) host) as [[mxs' [e|]] w]; simpl; [done|].
    intros [= <- <-]. simpl. by rewrite lookup_insert_eq.
Qed.

(** With every host of the groups cached, [Prepare] looks nothing up. *)
Lemma Prepare_groups_no_lookup o groups : forall err s,
  Forall (fun g => is_Some (mxAddrs s !! g.1)) groups ->
  let s' := final_state (Prepare_groups o groups err s) in
  lookups (log (net s')) = lookups (log (net s)) /\ mxAddrs s' = mxAddrs s.
Proof.
  induction groups as [|[host tos] groups IH]; intros err s Hall; simpl; [done|].
  apply Forall_cons in Hall as [[mxs Hhit] Hall]. simpl in Hhit.
  destruct (mxAddrsLock s) eqn:Hlock.
  { by rewrite Prepare_resolve_locked. }
  rewrite (Prepare_resolve_hit host s mxs), Hhit by done.
  destruct (Prepare_mxs_events o tos mxs err (net s)) as (k & evs & Hl & Hk & _).
  destruct (Prepare_mxs o tos mxs err (net s)) as [[[] err'] n1]; simpl in *.
  - destruct (IH err' (set_net s n1) Hall) as [Hlk Hm]. simpl in *.
    by rewrite Hlk, Hm, Hl, lookups_app, Hk, app_nil_r.
  - by rewrite Hl, lookups_app, Hk, app_nil_r.
Qed.

(** Once a domain has been resolved with the list [mxs], then after any
    further calls of the process the cache still holds [mxs] for it; a
    resolution of the domain that gets the lock returns [mxs] and leaves the
    state, log included, as it was: no lookup is made; the probe of the
    group of that domain adds no lookup to the log; and the main loop reads
    [mxs] from the cache.  A resolution that finds the lock held blocks. *)
Theorem cache_hit_with_lock_free host mxs s0 s ops :
  Prepare_resolve host s0 = Returns (inl mxs) s ->
  let s' := execs ops s in
  mxAddrs s' !! host = Some mxs
  /\ Prepare_resolve host s' = (if mxAddrsLock s' then Blocks s' else Returns (inl mxs) s')
  /\ (forall o tos err,
        lookups (log (net (final_state (Prepare_groups o [(host, tos)] err s'))))
        = lookups (log (net s')))
  /\ default [] (mxAddrs s' !! host) = mxs.
Proof.
  intros Hres s'. apply Prepare_resolve_cached in Hres.
  assert (mxAddrs s' !! host = Some mxs) as Hhit.
  { by eapply lookup_weaken; [|apply execs_mono]. }
  repeat split; [done| | |by rewrite Hhit].
  - destruct (mxAddrsLock s') eqn:Hlock.
    + by apply Prepare_resolve_locked.
    + by apply Prepare_resolve_hit.
  - intros o tos err. apply Prepare_groups_no_lookup. by repeat constructor.
Qed.

End Cache.

Lemma cache_hit_with_lock_free_witness :
  let mxs := [{| Host := "mx.example.com"; Pref := 10 |}] in
  let s := final_state (Prepare_resolve (Env := all_accepted) "example.com"
                          (initial (Env := all_accepted) 0%nat)) in
  let s' := execs (Env := all_accepted)
              [ OpSendMail (one_recipient_prepared "ops@example.com") (Some "hello");
                OpPrepare (one_recipient "dev@example.org") ] s in
  mxAddrs s' !! "example.com" = Some mxs
  /\ Prepare_resolve "example.com" s'
      = (if mxAddrsLock s' then Blocks s' else Returns (inl mxs) s')
  /\ (forall o tos err,
        lookups (log (net (final_state (Prepare_groups o [("example.com", tos)] err s'))))
        = lookups (log (net s')))
  /\ default [] (mxAddrs s' !! "example.com") = mxs.
Proof.
  intros mxs s.
  apply (cache_hit_with_lock_free (Env := all_accepted) "example.com" mxs
           (initial (Env := all_accepted) 0%nat) s).
  reflexivity.
Defined.

(** The run of the witness: one lookup for each of the two domains, and the
    lock free at the end. *)
Example cache_hit_run :
  let s := final_state (Prepare_resolve (Env := all_accepted) "example.com"
                          (initial (Env := all_accepted) 0%nat)) in
  let s' := execs (Env := all_accepted)
              [ OpSendMail (one_recipient_prepared "ops@example.com") (Some "hello");
                OpPrepare (one_recipient "dev@example.org") ] s in
  lookups (log (net s')) = ["example.com"; "example.org"]
  /\ mxAddrsLock s' = false
  /\ lookups (log (net (final_state
        (Prepare (Env := all_accepted) (one_recipient "ops@example.com") s'))))
     = ["example.com"; "example.org"].
Proof. by_running. Qed.

(** ** The lock on the failure path *)

Section LockHeld.
Context `{Env : Environment}.
Implicit Types (o : EmailOutput) (s : State).

Lemma Prepare_byHost_nonempty (to : list string) : to <> [] -> Prepare_byHost to <> ∅.
Proof.
  destruct to as [|t to]; [done|]. intros _ Hempty.
  pose proof (Prepare_byHost_lookup (t :: to) (Prepare_host t)) as Hl.
  rewrite Hempty, lookup_empty, filter_cons_True in Hl by done. done.
Qed.

Lemma range_byHost_nonempty (w : World) (m : gmap string (list string)) :
  m <> ∅ -> range_byHost w m <> [].
Proof.
  intros Hm Hnil. pose proof (range_byHost_perm w m) as Hp. rewrite Hnil in Hp.
  apply Permutation_nil_l in Hp. symmetry in Hp. by apply map_to_list_empty_iff in Hp.
Qed.

(** While the lock is held, every [Prepare] without relay and with a
    recipient blocks, and so does every delivery over a group. *)
Lemma Prepare_blocks o s :
  mxAddrsLock s = true -> hostport o = "" -> To o <> [] -> Prepare o s = Blocks s.
Proof.
  intros Hlock Hrelay Hto. unfold Prepare. rewrite decide_True by done. simpl.
  pose proof (range_byHost_nonempty (world (net s)) _ (Prepare_byHost_nonempty _ Hto)) as Hne.
  destruct (range_byHost _ _) as [|[host tos] groups]; [done|]. simpl.
  by rewrite Prepare_resolve_locked.
Qed.

Lemma EmailOutput_sendMail_blocks o body s :
  mxAddrsLock s = true -> hostport o = "" -> byHost o <> ∅ ->
  EmailOutput_sendMail o body s = Blocks s.
Proof.
  intros Hlock Hrelay Hby. unfold EmailOutput_sendMail. rewrite decide_True by done.
  pose proof (range_byHost_nonempty (world (net s)) _ Hby) as Hne.
  destruct (range_byHost _ _) as [|[host tos] groups]; [done|]. simpl.
  unfold Lock. by rewrite Hlock.
Qed.

(** A failed lookup makes [Prepare] return with the lock held and the cache
    as it was. *)
Lemma Prepare_lookup_failure o s host tos groups mxs e w :
  hostport o = "" -> mxAddrsLock s = false ->
  range_byHost (world (net s)) (Prepare_byHost (To o)) = (host, tos) :: groups ->
  mxAddrs s !! host = None ->
  LookupMX (world (net s)) host = ((mxs, Some e), w) ->
  exists o' s',
    Prepare o s = Returns (Some (ErrLookupMX host e), o') s' /\
    mxAddrsLock s' = true /\ mxAddrs s' = mxAddrs s.
Proof.
  intros Hrelay Hlock Hrange Hmiss Hdns. unfold Prepare. rewrite decide_True by done.
  simpl. rewrite Hrange. simpl.
  rewrite (Prepare_resolve_failure host s mxs e w) by done. by eexists _, _.
Qed.

End LockHeld.

(** C3 is violated by the code.  The lookup for x.com fails: [Prepare] returns
    the error through line 102, between [Lock] and [Unlock], and the lock,
    free before the call, is held after it.  A later [Prepare] for another
    domain, y.com, blocks on the lock, and so does a later delivery. *)
Theorem C3_lookup_failure_leaves_lock_held :
  let s0 := initial (Env := dns_fails_once) 0%nat in
  let r1 := Prepare (Env := dns_fails_once) (one_recipient "a@x.com") s0 in
  let s1 := final_state r1 in
  r1 = Returns (Some (ErrLookupMX "x.com" (LibError "no such host")),
                one_recipient_prepared "a@x.com") s1
  /\ mxAddrsLock s0 = false
  /\ mxAddrsLock s1 = true
  /\ Prepare (one_recipient "b@y.com") s1 = Blocks s1
  /\ EmailOutput_sendMail (one_recipient_prepared "b@y.com") (Some "hello") s1 = Blocks s1.
Proof. by_running. Qed.

(** C4 is violated by the code.  The failed lookup for x.com leaves the cache
    as it was, without an entry for x.com, as the claim says.  But the retry,
    made when the lookup would succeed, blocks on the lock that the failed
    call still holds: it makes no lookup and does not succeed.  Had the lock
    been released, the retry would have looked x.com up afresh and
    succeeded. *)
Theorem C4_retry_after_lookup_failure_blocks :
  let mx := {| Host := "mx.example.com"; Pref := 10 |} in
  let s0 := initial (Env := dns_fails_once) 0%nat in
  let r1 := Prepare (Env := dns_fails_once) (one_recipient "a@x.com") s0 in
  let s1 := final_state r1 in
  r1 = Returns (Some (ErrLookupMX "x.com" (LibError "no such host")),
                one_recipient_prepared "a@x.com") s1
  /\ mxAddrs s1 = mxAddrs s0
  /\ mxAddrs s1 !! "x.com" = None
  /\ (LookupMX (world (net s1)) "x.com").1 = ([mx], None)
  /\ Prepare (one_recipient "a@x.com") s1 = Blocks s1
  /\ lookups (log (net s1)) = ["x.com"]
  /\ (let r2 := Prepare (one_recipient "a@x.com") (Unlock s1) in
      r2 = Returns (None, one_recipient_prepared "a@x.com") (final_state r2)
      /\ lookups (log (net (final_state r2))) = ["x.com"; "x.com"]
      /\ mxAddrs (final_state r2) !! "x.com" = Some [mx]).
Proof. by_running. Qed.

(** C5 is violated by the code.  x.com is resolved once, with success, and
    its list is in the cache.  Then the lookup for another domain, y.com,
    fails: [Prepare] returns through line 102 with the lock held.  The cache
    still holds the list of x.com, but the next resolution of x.com does not
    return it: it blocks on the lock, in [Prepare] and in the cache read of a
    delivery alike.  Had the lock been released, the resolution would have
    returned the cached list without a lookup. *)
Theorem C5_resolution_blocks_after_failed_lookup_elsewhere :
  let mx := {| Host := "mx.example.com"; Pref := 10 |} in
  let s0 := initial (Env := y_com_unresolvable) 0%nat in
  let r1 := Prepare (Env := y_com_unresolvable) (one_recipient "a@x.com") s0 in
  let s1 := final_state r1 in
  let r2 := Prepare (Env := y_com_unresolvable) (one_recipient "b@y.com") s1 in
  let s2 := final_state r2 in
  r1 = Returns (None, one_recipient_prepared "a@x.com") s1
  /\ mxAddrs s1 !! "x.com" = Some [mx]
  /\ mxAddrsLock s1 = false
  /\ r2 = Returns (Some (ErrLookupMX "y.com" (LibError "no such host")),
                   one_recipient_prepared "b@y.com") s2
  /\ mxAddrs s2 !! "x.com" = Some [mx]
  /\ mxAddrsLock s2 = true
  /\ Prepare_resolve "x.com" s2 = Blocks s2
  /\ Prepare (one_recipient "a@x.com") s2 = Blocks s2
  /\ EmailOutput_sendMail (one_recipient_prepared "a@x.com") (Some "hello") s2 = Blocks s2
  /\ Prepare_resolve "x.com" (Unlock s2) = Returns (inl [mx]) (Unlock s2)
  /\ lookups (log (net s2)) = ["x.com"; "y.com"].
Proof. by_running. Qed.

(** * Further properties of the code *)

(** ** The order of the calls of a session *)

Lemma steps_app evs1 evs2 : steps (evs1 ++ evs2) = steps evs1 ++ steps evs2.
Proof. induction evs1 as [|[] evs1 IH]; simpl; by rewrite ?IH. Qed.

Lemma rcpts_app sts1 sts2 : rcpts (sts1 ++ sts2) = rcpts sts1 ++ rcpts sts2.
Proof. induction sts1 as [|[] sts1 IH]; simpl; by rewrite ?IH. Qed.

Lemma writes_app sts1 sts2 : writes (sts1 ++ sts2) = writes sts1 ++ writes sts2.
Proof. induction sts1 as [|[] sts1 IH]; simpl; by rewrite ?IH. Qed.

Lemma rcpts_map_Rcpt to : rcpts (map Rcpt to) = to.
Proof. induction to as [|addr to IH]; simpl; by rewrite ?IH. Qed.

Lemma writes_map_Rcpt to : writes (map Rcpt to) = [].
Proof. induction to as [|addr to IH]; simpl; by rewrite ?IH. Qed.

Section Plans.
Context `{Env : Environment}.

Notation "m ;; k" := (andThen m k) (at level 100, k at level 200, right associativity).

Lemma follows_skip n : follows skip n [].
Proof. exists []. simpl. by rewrite app_nil_r. Qed.

Lemma follows_call st n : follows (call st) n [st].
Proof.
  unfold follows, call. destruct (respond (world n) st) as [r w]. simpl.
  exists [Smtp st r]. repeat split; [done|].
  destruct r as [e|]; [by exists [], st|done].
Qed.

Lemma follows_andThen m k n p1 p2 :
  follows m n p1 ->
  (forall n1, m n = (None, n1) -> follows k n1 p2) ->
  follows (m ;; k) n (p1 ++ p2).
Proof.
  intros (evs1 & Hl1 & Hp1 & Hr1) Hk. unfold follows, andThen.
  destruct (m n) as [[e|] n1] eqn:Hmn; simpl in *.
  - exists evs1. repeat split; [done| |done]. by apply prefix_app_r.
  - destruct Hr1 as [Hs1 Ha1]. destruct (Hk n1 eq_refl) as (evs2 & Hl2 & Hp2 & Hr2).
    exists (evs1 ++ evs2). rewrite Hl2, Hl1, steps_app, Hs1, <- app_assoc.
    repeat split; [by apply prefix_app|].
    destruct (k n1).1 as [e|].
    + destruct Hr2 as (pre & st & -> & Hpre). exists (evs1 ++ pre), st.
      by rewrite app_assoc, forallb_app, Ha1, Hpre.
    + destruct Hr2 as [-> Ha2]. by rewrite forallb_app, Ha1, Ha2.
Qed.

Lemma follows_rcpts to : forall n, follows (sendMail_rcpts to) n (map Rcpt to).
Proof.
  induction to as [|addr to IH]; intros n; simpl.
  - apply follows_skip.
  - apply (follows_andThen _ _ _ [Rcpt addr]); [apply follows_call|]. intros n1 _. apply IH.
Qed.

Lemma follows_data msg n :
  follows (sendMail_data msg) n
    (match msg with Some m => [Data; Write m; Close] | None => [] end).
Proof.
  destruct msg as [m|]; simpl; [|apply follows_skip].
  apply (follows_andThen _ _ _ [Data]); [apply follows_call|]. intros n1 _.
  apply (follows_andThen _ _ _ [Write m]); [apply follows_call|]. intros n2 _.
  apply follows_call.
Qed.

Lemma follows_ifExtension ext st n :
  follows (ifExtension ext (call st)) n (if advertises (world n) ext then [st] else []).
Proof.
  unfold ifExtension, follows. destruct (advertises (world n) ext).
  - apply follows_call.
  - apply follows_skip.
Qed.

(** Every session follows the plan of [sendMail], for the extensions that
    the server advertised when it was asked for them. *)
Lemma sendMail_follows_plan addr a from to msg timeout tls n :
  follows (sendMail addr a from to msg timeout tls) n
    (sendMail_plan
       (advertises (world (sendMail_at_STARTTLS addr timeout n)) "STARTTLS")
       (advertises (world (sendMail_at_AUTH addr timeout tls n)) "AUTH")
       addr a from to msg timeout tls).
Proof.
  unfold sendMail_at_AUTH, sendMail_at_STARTTLS.
  set (n1 := (call (Dial addr timeout) n).2).
  set (n2 := (call (NewClient (SplitHostPort_host addr)) n1).2).
  set (n3 := (call (Hello "localhost") n2).2).
  set (n4 := (ifExtension "STARTTLS" (call (StartTLS tls)) n3).2).
  unfold sendMail, sendMail_plan.
  apply (follows_andThen _ _ _ [Dial addr timeout]); [apply follows_call|].
  intros n1' H1. assert (n1' = n1) as -> by (subst n1; by rewrite H1).
  apply (follows_andThen _ _ _ [NewClient (SplitHostPort_host addr)]); [apply follows_call|].
  intros n2' H2. assert (n2' = n2) as -> by (subst n2; by rewrite H2).
  apply (follows_andThen _ _ _ [Hello "localhost"]); [apply follows_call|].
  intros n3' H3. assert (n3' = n3) as -> by (subst n3; by rewrite H3).
  apply follows_andThen; [apply follows_ifExtension|].
  intros n4' H4. assert (n4' = n4) as -> by (subst n4; by rewrite H4).
  apply follows_andThen.
  { destruct a as [a'|]; [apply follows_ifExtension|apply follows_skip]. }
  intros n5 _. apply (follows_andThen _ _ _ [Mail from]); [apply follows_call|].
  intros n6 _. apply follows_andThen; [apply follows_rcpts|].
  intros n7 _. apply follows_andThen; [apply follows_data|].
  intros n8 _. apply follows_call.
Qed.

Lemma prefix_app_cases {A} (l l1 l2 : list A) :
  l `prefix_of` l1 ++ l2 ->
  l `prefix_of` l1 \/ exists l', l = l1 ++ l' /\ l' `prefix_of` l2.
Proof.
  revert l. induction l1 as [|x l1 IH]; intros l Hl; simpl in *.
  - right. by exists l.
  - destruct l as [|y l]; [left; apply prefix_nil|].
    pose proof (prefix_cons_inv_1 _ _ _ _ Hl) as ->.
    apply prefix_cons_inv_2 in Hl.
    destruct (IH l Hl) as [Hp|(l' & -> & Hp)].
    + left. by apply prefix_cons.
    + right. by exists l'.
Qed.

Lemma rcpts_prefix sts1 sts2 : sts1 `prefix_of` sts2 -> rcpts sts1 `prefix_of` rcpts sts2.
Proof. intros [k ->]. rewrite rcpts_app. by apply prefix_app_r. Qed.

Lemma writes_prefix sts1 sts2 : sts1 `prefix_of` sts2 -> writes sts1 `prefix_of` writes sts2.
Proof. intros [k ->]. rewrite writes_app. by apply prefix_app_r. Qed.

(** The plan, cut where the declaration of the recipients ends. *)
Lemma sendMail_plan_split b1 b2 addr a from to msg timeout tls :
  exists before after,
    sendMail_plan b1 b2 addr a from to msg timeout tls = (before ++ map Rcpt to) ++ after /\
    rcpts before = [] /\ writes before = [] /\
    rcpts after = [] /\
    writes after = match msg with Some m => [m] | None => [] end.
Proof.
  exists (Dial addr timeout :: NewClient (SplitHostPort_host addr) :: Hello "localhost" ::
          (if b1 then [StartTLS tls] else []) ++
          match a with Some a' => if b2 then [DoAuth a'] else [] | None => [] end ++
          [Mail from]),
         (match msg with Some m => [Data; Write m; Close] | None => [] end ++ [Quit]).
  split.
  - unfold sendMail_plan. simpl. by rewrite <- !app_assoc.
  - destruct b1, b2, a, msg; done.
Qed.

(** X1.  The calls of a session are, in order, those of the plan Dial,
    NewClient, Hello, StartTLS if the server advertises STARTTLS after Hello,
    Auth if credentials are given and the server advertises AUTH after the
    StartTLS step, Mail, one Rcpt for each recipient, then Data, Write and
    Close if there is a body, and Quit; the session stops at the first call
    that is refused and returns its error; it returns success only after all
    calls of the plan were made and accepted. *)
Theorem session_calls_follow_plan addr a from to msg timeout tls n :
  let r := sendMail addr a from to msg timeout tls n in
  let w1 := world (sendMail_at_STARTTLS addr timeout n) in
  let w2 := world (sendMail_at_AUTH addr timeout tls n) in
  let plan := sendMail_plan (advertises w1 "STARTTLS") (advertises w2 "AUTH")
                addr a from to msg timeout tls in
  exists evs,
    log r.2 = log n ++ evs /\
    steps evs `prefix_of` plan /\
    match r.1 with
    | None => steps evs = plan /\ forallb accepted evs = true
    | Some e => exists pre st, evs = pre ++ [Smtp st (Some e)] /\ forallb accepted pre = true
    end.
Proof.
  intros r w1 w2 plan.
  destruct (sendMail_follows_plan addr a from to msg timeout tls n) as (evs & Hf).
  by exists evs.
Qed.

Lemma sendMail_recipients_body addr a from to msg timeout tls n :
  let r := sendMail addr a from to msg timeout tls n in
  let body := match msg with Some m => [m] | None => [] end in
  exists evs,
    log r.2 = log n ++ evs /\
    rcpts (steps evs) `prefix_of` to /\
    writes (steps evs) `prefix_of` body /\
    (writes (steps evs) <> [] -> rcpts (steps evs) = to) /\
    (r.1 = None -> rcpts (steps evs) = to /\ writes (steps evs) = body).
Proof.
  intros r body. destruct (sendMail_follows_plan addr a from to msg timeout tls n)
    as (evs & Hl & Hp & Hr).
  destruct (sendMail_plan_split
              (advertises (world (sendMail_at_STARTTLS addr timeout n)) "STARTTLS")
              (advertises (world (sendMail_at_AUTH addr timeout tls n)) "AUTH")
              addr a from to msg timeout tls)
    as (before & after & Hplan & Hrb & Hwb & Hra & Hwa).
  assert (rcpts (before ++ map Rcpt to) = to) as Hrcpts.
  { by rewrite rcpts_app, Hrb, rcpts_map_Rcpt. }
  assert (writes (before ++ map Rcpt to) = []) as Hwrites.
  { by rewrite writes_app, Hwb, writes_map_Rcpt. }
  exists evs. split; [done|]. rewrite Hplan in Hp.
  assert (rcpts ((before ++ map Rcpt to) ++ after) = to) as Hall_r.
  { by rewrite rcpts_app, Hrcpts, Hra, app_nil_r. }
  assert (writes ((before ++ map Rcpt to) ++ after) = body) as Hall_w.
  { by rewrite writes_app, Hwrites, Hwa. }
  refine (conj _ (conj _ (conj _ _))).
  - rewrite <- Hall_r. by apply rcpts_prefix.
  - rewrite <- Hall_w. by apply writes_prefix.
  - intros Hw. destruct (prefix_app_cases _ _ _ Hp) as [Hp1|(l' & Hl' & Hp2)].
    + apply writes_prefix in Hp1. rewrite Hwrites in Hp1. by apply prefix_nil_inv in Hp1.
    + apply rcpts_prefix in Hp2. rewrite Hra in Hp2. apply prefix_nil_inv in Hp2.
      by rewrite Hl', rcpts_app, Hrcpts, Hp2, app_nil_r.
  - fold r in Hr. intros Hok. rewrite Hok in Hr. destruct Hr as [-> _].
    by rewrite Hplan.
Qed.

(** X2.  The recipients that a session declares are a prefix of [to], in
    order; nothing is written before every recipient was declared, and
    nothing but the body, once; a session that returns success has declared
    every recipient and, when there is a body, written it. *)
Theorem session_recipients_and_body addr a from to msg timeout tls n :
  let r := sendMail addr a from to msg timeout tls n in
  let body := match msg with Some m => [m] | None => [] end in
  exists evs,
    log r.2 = log n ++ evs /\
    rcpts (steps evs) `prefix_of` to /\
    writes (steps evs) `prefix_of` body /\
    (writes (steps evs) <> [] -> rcpts (steps evs) = to) /\
    (r.1 = None -> rcpts (steps evs) = to /\ writes (steps evs) = body).
Proof. apply sendMail_recipients_body. Qed.

End Plans.

(** A server that advertises AUTH only after the TLS upgrade: the session
    asks for AUTH after its StartTLS call, and authenticates. *)
Example auth_after_tls_run :
  let a := PlainAuth "" "user" "secret" "mx.example.com" in
  let n := {| world := false : @World auth_after_tls; log := [] |} in
  let r := sendMail (Env := auth_after_tls) "mx.example.com:25" (Some a)
             "heka@example.org" ["ops@example.com"] None DefaultTimeout None n in
  advertises (world (sendMail_at_STARTTLS (Env := auth_after_tls)
                       "mx.example.com:25" DefaultTimeout n)) "AUTH" = false /\
  advertises (world (sendMail_at_AUTH (Env := auth_after_tls)
                       "mx.example.com:25" DefaultTimeout None n)) "AUTH" = true /\
  steps (log r.2) =
    [ Dial "mx.example.com:25" DefaultTimeout; NewClient "mx.example.com";
      Hello "localhost"; StartTLS None; DoAuth a; Mail "heka@example.org";
      Rcpt "ops@example.com"; Quit ] /\
  r.1 = None.
Proof. by_running. Qed.

(** ** Extensions and credentials *)

Section ExtensionOff.
Context `{Env : Environment}.

Lemma spec_ifExtension_off P ext m :
  (forall w, advertises w ext = false) -> session_spec P (ifExtension ext m).
Proof.
  intros Hoff n. exists []. split; unfold ifExtension; rewrite ?Hoff; simpl;
    by rewrite ?app_nil_r.
Qed.

End ExtensionOff.

Ltac session_steps_off :=
  repeat first
    [ apply spec_andThen
    | by apply spec_ifExtension_off
    | apply spec_ifExtension
    | apply spec_call; reflexivity
    | apply spec_skip
    | apply spec_rcpts; reflexivity
    | apply spec_data; intros ? [= <-]; repeat split; reflexivity
    | apply spec_data; intros ? [=] ].

Section Extensions.
Context `{Env : Environment}.

Lemma run_all_accepted P m n evs :
  run_of P m n evs -> forallb accepted evs = true -> (m n).1 = None.
Proof.
  intros [_ _ Hs] Hacc. destruct (m n).1 as [e|]; [|done].
  destruct Hs as (pre & st & -> & _). rewrite forallb_app in Hacc. simpl in Hacc.
  by rewrite andb_false_r in Hacc.
Qed.


(** X4.  Without STARTTLS advertised the session makes no StartTLS call: the
    envelope and the body go over the connection as it was opened. *)
Theorem no_StartTLS_without_extension addr a from to msg timeout tls n :
  (forall w, advertises w "STARTTLS" = false) ->
  let r := sendMail addr a from to msg timeout tls n in
  exists evs,
    log r.2 = log n ++ evs /\
    forallb (smtp_only (fun st => negb (is_starttls st))) evs = true /\
    (forallb accepted evs = true -> r.1 = None).
Proof.
  intros Hoff r.
  assert (session_spec (fun st => negb (is_starttls st))
            (sendMail addr a from to msg timeout tls)) as Hspec.
  { unfold sendMail. destruct a, msg; session_steps_off. }
  destruct (Hspec n) as [evs Hrun]. exists evs.
  split; [apply Hrun|]. split; [apply Hrun|]. by eapply run_all_accepted.
Qed.

End Extensions.


Lemma no_StartTLS_without_extension_witness :
  let r := sendMail (Env := all_accepted) "smtp.example.com:25" None
             "heka@example.org" ["ops@example.com"] (Some "hello") DefaultTimeout None
             (net (initial (Env := all_accepted) 0%nat)) in
  exists evs,
    log r.2 = log (net (initial (Env := all_accepted) 0%nat)) ++ evs /\
    forallb (smtp_only (fun st => negb (is_starttls st))) evs = true /\
    (forallb accepted evs = true -> r.1 = None).
Proof.
  apply (no_StartTLS_without_extension (Env := all_accepted)). reflexivity.
Defined.

(** With AUTH advertised the same credentials are used, after the upgrade to
    TLS and before the envelope. *)
Example credentials_used_with_AUTH :
  steps (log (sendMail (Env := quit_refused) "smtp.example.com:25" (Some relay_credentials)
                "heka@example.org" ["ops@example.com"] None DefaultTimeout None
                (net (initial (Env := quit_refused) 0%nat))).2)
  = [ Dial "smtp.example.com:25" DefaultTimeout; NewClient "smtp.example.com";
      Hello "localhost"; StartTLS None; DoAuth relay_credentials;
      Mail "heka@example.org"; Rcpt "ops@example.com"; Quit ].
Proof. by_running. Qed.

(** ** A group whose candidates all fail *)

Section GroupFailure.
Context `{Env : Environment}.
Implicit Types (o : EmailOutput) (s : State) (n : Net) (mxs : list MX)
  (tos : list string) (body : option string).

(** When the loop over the candidates ends with an error, every candidate was
    dialled, in order, and the error is that of the session with the last. *)
Lemma sendMail_mxs_failure o tos body mxs : forall err n e n',
  sendMail_mxs o tos body mxs err n = (Some e, n') ->
  dials (log n') = dials (log n) ++ map (mx_dial 30) mxs /\
  ((mxs = [] /\ err = Some e) \/
   exists pre mx n1,
     mxs = pre ++ [mx] /\
     sendMail (Host mx +:+ ":25") None (From o) tos body 30 (tlsConfig o) n1 = (Some e, n')).
Proof.
  induction mxs as [|mx mxs IH]; intros err n e n'; simpl.
  - intros [= -> ->]. rewrite app_nil_r. split; [done|]. by left.
  - pose proof (sendMail_dials (Host mx +:+ ":25") None (From o) tos body 30
                  (tlsConfig o) n) as Hd.
    destruct (sendMail _ _ _ _ _ _ _ n) as [[e1|] n1] eqn:Hsession; [|done].
    simpl in Hd. intros Hrest. destruct (IH _ _ _ _ Hrest) as [Hdials Hlast].
    split.
    + rewrite Hdials, Hd, <- app_assoc. done.
    + right. destruct Hlast as [[Hnil _]|(pre & mx' & n2 & -> & Hlast)].
      * subst mxs. simpl in Hrest. injection Hrest as -> ->. by exists [], mx, n.
      * by exists (mx :: pre), mx', n2.
Qed.

Lemma sendMail_groups_failure o body groups : forall s err s',
  sendMail_groups o body groups s = Returns (Some err) s' ->
  exists host tos mxs e pre mx n1 ds,
    (host, tos) ∈ groups /\
    err = ErrSend (From o) tos mxs e /\
    mxAddrs s !! host = Some mxs /\
    mxs = pre ++ [mx] /\
    sendMail (Host mx +:+ ":25") None (From o) tos body 30 (tlsConfig o) n1
      = (Some e, net s') /\
    dials (log (net s')) = ds ++ map (mx_dial 30) mxs.
Proof.
  induction groups as [|[host tos] groups IH]; intros s err s'; simpl; [done|].
  unfold Lock. destruct (mxAddrsLock s) eqn:Hlock; simpl; [done|].
  destruct (sendMail_mxs o tos body (default [] (mxAddrs s !! host)) None (net s))
    as [[e|] n1] eqn:Hmxs.
  - intros [= <- <-]. simpl.
    destruct (sendMail_mxs_failure _ _ _ _ _ _ _ _ Hmxs)
      as [Hdials [[_ [=]]|(pre & mx & n2 & Hlist & Hlast)]].
    exists host, tos, (default [] (mxAddrs s !! host)), e, pre, mx, n2, (dials (log (net s))).
    repeat split; try done; [apply list_elem_of_here|].
    destruct (mxAddrs s !! host) as [mxs|]; [done|].
    simpl in Hlist. by destruct pre.
  - intros Hrest. destruct (IH _ _ _ Hrest)
      as (host' & tos' & mxs & e & pre & mx & n2 & ds & Hin & -> & Hcache & -> & Hlast & Hd).
    exists host', tos', (pre ++ [mx]), e, pre, mx, n2, ds.
    repeat split; try done. by apply list_elem_of_further.
Qed.

(** X5.  A delivery without relay that returns an error returns
    [ErrSend from tos mxs e] for a group [tos] of the plugin, where [mxs] is
    the whole cached candidate list of the group's host, not empty, and [e]
    is the error of the session with the last candidate; all candidates of
    that group were dialled, in order, and nothing was dialled after them: the
    groups that remained were not attempted. *)
Theorem delivery_error_is_last_candidate_error o body s err s' :
  hostport o = "" ->
  EmailOutput_sendMail o body s = Returns (Some err) s' ->
  exists host tos mxs e pre mx n1 ds,
    byHost o !! host = Some tos /\
    err = ErrSend (From o) tos mxs e /\
    mxAddrs s !! host = Some mxs /\
    mxs = pre ++ [mx] /\
    sendMail (Host mx +:+ ":25") None (From o) tos body 30 (tlsConfig o) n1
      = (Some e, net s') /\
    dials (log (net s')) = ds ++ map (mx_dial 30) mxs.
Proof.
  intros Hrelay. unfold EmailOutput_sendMail. rewrite decide_True by done. intros Hrun.
  destruct (sendMail_groups_failure _ _ _ _ _ _ Hrun)
    as (host & tos & mxs & e & pre & mx & n1 & ds & Hin & Herr & Hcache & Hlist & Hlast & Hd).
  exists host, tos, mxs, e, pre, mx, n1, ds. repeat split; try done.
  apply elem_of_map_to_list. by rewrite <- (range_byHost_perm (world (net s))).
Qed.

End GroupFailure.

Lemma delivery_error_is_last_candidate_error_witness :
  let o := one_recipient_prepared "a@x.com" in
  let s := cached (Env := no_connection) 0%nat "x.com" x_com_mxs in
  let s' := final_state (EmailOutput_sendMail (Env := no_connection) o (Some "hello") s) in
  exists host tos mxs e pre mx n1 ds,
    byHost o !! host = Some tos /\
    ErrSend "heka@example.org" ["a@x.com"] x_com_mxs (LibError "connection refused")
      = ErrSend (From o) tos mxs e /\
    mxAddrs s !! host = Some mxs /\
    mxs = pre ++ [mx] /\
    sendMail (Env := no_connection) (Host mx +:+ ":25") None (From o) tos (Some "hello") 30
      (tlsConfig o) n1 = (Some e, net s') /\
    dials (log (net s')) = ds ++ map (mx_dial 30) mxs.
Proof.
  intros o s s'.
  apply (delivery_error_is_last_candidate_error (Env := no_connection) o (Some "hello") s
           (ErrSend "heka@example.org" ["a@x.com"] x_com_mxs (LibError "connection refused"))
           s'); vm_compute; reflexivity.
Defined.

(** The run of the witness: the four candidates are dialled in order. *)
Example all_candidates_fail_run :
  dials (log (net (final_state
    (EmailOutput_sendMail (Env := no_connection) (one_recipient_prepared "a@x.com")
       (Some "hello") (cached (Env := no_connection) 0%nat "x.com" x_com_mxs)))))
  = [ ("mx1.x.com:25", 30); ("mx2.x.com:25", 30); ("mx3.x.com:25", 30);
      ("mx4.x.com:25", 30) ].
Proof. by_running. Qed.

(** ** What a successful [Prepare] leaves behind *)

Section PrepareSuccess.
Context `{Env : Environment}.
Implicit Types (o : EmailOutput) (s : State) (n : Net) (mxs : list MX).

Lemma Prepare_resolve_unlocks host s mxs s1 :
  Prepare_resolve host s = Returns (inl mxs) s1 -> mxAddrsLock s1 = false.
Proof.
  unfold Prepare_resolve, Lock. destruct (mxAddrsLock s); simpl; [done|].
  destruct (mxAddrs s !! host) as [mxs'|]; simpl.
  - by intros [= <- <-].
  - destruct (LookupMX (world (net s)) host) as [[mxs' [e|]] w]; simpl; [done|].
    by intros [= <- <-].
Qed.

Lemma Prepare_mxs_ok o tos mxs err n err' n' :
  Prepare_mxs o tos mxs err n = ((true, err'), n') -> mxs <> [].
Proof. by destruct mxs. Qed.

Lemma Prepare_groups_success o groups : forall err s s',
  Prepare_groups o groups err s = Returns None s' ->
  (groups <> [] -> mxAddrsLock s' = false) /\
  Forall (fun g => exists mxs, mxs <> [] /\ mxAddrs s' !! g.1 = Some mxs) groups.
Proof.
  induction groups as [|[host tos] groups IH]; intros err s s'; simpl.
  - by intros [= <-].
  - destruct (Prepare_resolve host s) as [[mxs|e] s1|s1] eqn:Hres; try done.
    destruct (Prepare_mxs o tos mxs _ (net s1)) as [[[] err'] n1] eqn:Hmxs; [|done].
    intros Hrest. destruct (IH _ _ _ Hrest) as [Hlock Hall].
    pose proof (Prepare_resolve_unlocks _ _ _ _ Hres) as Hfree.
    pose proof (Prepare_resolve_cached _ _ _ _ Hres) as Hcached.
    pose proof (Prepare_groups_mono o groups err' (set_net s1 n1)) as Hmono.
    rewrite Hrest in Hmono. simpl in Hmono.
    split.
    + intros _. destruct groups as [|g groups]; [|by apply Hlock].
      simpl in Hrest. by injection Hrest as <-.
    + constructor; [|done]. exists mxs. split; [by eapply Prepare_mxs_ok|].
      by eapply lookup_weaken.
Qed.

(** X6.  When [Prepare] without relay returns nil, the lock is free again
    and the cache holds, for the host of every recipient, an MX list that is
    not empty: for every group of [byHost] there is a candidate to deliver
    to. *)
Theorem Prepare_success_caches_candidates o s o' s' :
  hostport o = "" ->
  To o <> [] ->
  Prepare o s = Returns (None, o') s' ->
  mxAddrsLock s' = false /\
  (forall host tos, byHost o' !! host = Some tos ->
     exists mxs, mxs <> [] /\ mxAddrs s' !! host = Some mxs) /\
  (forall t, t ∈ To o ->
     exists mxs, mxs <> [] /\ mxAddrs s' !! Prepare_host t = Some mxs).
Proof.
  intros Hrelay Hto. unfold Prepare. rewrite decide_True by done. simpl.
  destruct (Prepare_groups _ _ None s) as [err s1|s1] eqn:Hgroups; [|done].
  intros [= -> <- <-]. destruct (Prepare_groups_success _ _ _ _ _ Hgroups) as [Hlock Hall].
  assert (forall host tos, Prepare_byHost (To o) !! host = Some tos ->
            exists mxs, mxs <> [] /\ mxAddrs s1 !! host = Some mxs) as Hgroup.
  { intros host tos Hin. rewrite Forall_forall in Hall.
    apply (Hall (host, tos)). rewrite range_byHost_perm. by apply elem_of_map_to_list. }
  split; [|split; [done|]].
  - apply Hlock. intros Hnil.
    pose proof (range_byHost_perm (world (net s)) (Prepare_byHost (To o))) as Hp.
    rewrite Hnil in Hp. apply Permutation_nil_l in Hp. symmetry in Hp.
    apply map_to_list_empty_iff in Hp.
    destruct (To o) as [|t to]; [done|].
    pose proof (Prepare_byHost_lookup (t :: to) (Prepare_host t)) as Hl.
    rewrite Hp, lookup_empty, filter_cons_True in Hl by done. done.
  - intros t Ht. pose proof (Prepare_byHost_lookup (To o) (Prepare_host t)) as Hl.
    destruct (filter _ (To o)) as [|t' l] eqn:Hfilter.
    + assert (t ∈ filter (fun t0 => Prepare_host t0 = Prepare_host t) (To o)) as Hin.
      { by apply list_elem_of_filter. }
      rewrite Hfilter in Hin. by apply not_elem_of_nil in Hin.
    + by eapply Hgroup.
Qed.

End PrepareSuccess.

Lemma Prepare_success_caches_candidates_witness :
  let o := one_recipient "a@x.com" in
  let s := initial (Env := third_mx_accepts) 0%nat in
  let o' := one_recipient_prepared "a@x.com" in
  let s' := final_state (Prepare (Env := third_mx_accepts) o s) in
  mxAddrsLock s' = false /\
  (forall host tos, byHost o' !! host = Some tos ->
     exists mxs, mxs <> [] /\ mxAddrs s' !! host = Some mxs) /\
  (forall t, t ∈ To o ->
     exists mxs, mxs <> [] /\ mxAddrs s' !! Prepare_host t = Some mxs).
Proof.
  intros o s o' s'.
  apply (Prepare_success_caches_candidates (Env := third_mx_accepts) o s o' s');
    [reflexivity|discriminate|vm_compute; reflexivity].
Defined.

(** ** One successful session for each group *)

Lemma completed_app evs1 evs2 : completed (evs1 ++ evs2) = (completed evs1 + completed evs2)%nat.
Proof.
  induction evs1 as [|[[] []|] evs1 IH]; simpl; rewrite ?IH; done.
Qed.

Lemma completed_none evs :
  forallb (smtp_only (fun st => negb (is_quit st))) evs = true -> completed evs = 0%nat.
Proof.
  induction evs as [|[[] []|] evs IH]; simpl; intros H; try done; by apply IH.
Qed.

Section Completed.
Context `{Env : Environment}.
Implicit Types (o : EmailOutput) (s : State) (n : Net) (mxs : list MX)
  (tos : list string) (body : option string).

(** A session that returns success adds one accepted [Quit] to the log, and
    a session that fails adds none. *)
Lemma sendMail_completed addr a from to msg timeout tls n :
  let r := sendMail addr a from to msg timeout tls n in
  exists evs, log r.2 = log n ++ evs /\
              completed evs = match r.1 with None => 1%nat | Some _ => 0%nat end.
Proof.
  intros r. destruct (sendMail_ends_in_quit addr a from to msg timeout tls n)
    as (pre & _ & Hnq & [(q & Hl & Hr)|(st & e & Hst & Hl & Hr)]); fold r in Hl, Hr.
  - exists (pre ++ [Smtp Quit q]). split; [done|].
    rewrite completed_app, (completed_none pre), Hr by done. by destruct q.
  - exists (pre ++ [Smtp st (Some e)]). split; [done|].
    rewrite completed_app, (completed_none pre), Hr by done. by destruct st.
Qed.

Lemma sendMail_mxs_completed o tos body mxs : forall err n,
  let r := sendMail_mxs o tos body mxs err n in
  exists evs, log r.2 = log n ++ evs /\
              completed evs = match r.1, mxs with
                              | None, _ :: _ => 1%nat
                              | _, _ => 0%nat
                              end.
Proof.
  induction mxs as [|mx mxs IH]; intros err n; simpl.
  - exists []. rewrite app_nil_r. by destruct err.
  - destruct (sendMail_completed (Host mx +:+ ":25") None (From o) tos body 30
                (tlsConfig o) n) as (evs1 & Hl1 & Hc1).
    destruct (sendMail _ _ _ _ _ _ _ n) as [[e|] n1]; simpl in *; [|by exists evs1].
    destruct (IH (Some e) n1) as (evs2 & Hl2 & Hc2). exists (evs1 ++ evs2).
    rewrite Hl2, Hl1, completed_app, Hc1, Hc2, <- app_assoc. split; [done|].
    destruct mxs as [|mx' mxs]; [|done]. simpl. done.
Qed.

Lemma sendMail_groups_completed o body groups : forall s,
  let r := sendMail_groups o body groups s in
  exists evs,
    log (net (final_state r)) = log (net s) ++ evs /\
    (completed evs <= length groups)%nat /\
    ((exists s', r = Returns None s') ->
     Forall (fun g => default [] (mxAddrs s !! g.1) <> []) groups ->
     completed evs = length groups).
Proof.
  induction groups as [|[host tos] groups IH]; intros s; simpl.
  - exists []. by rewrite app_nil_r.
  - unfold Lock. destruct (mxAddrsLock s) eqn:Hlock; simpl.
    { exists []. rewrite app_nil_r. split; [done|]. split; [simpl; lia|].
      by intros [s' [=]]. }
    destruct (sendMail_mxs_completed o tos body (default [] (mxAddrs s !! host)) None (net s))
      as (evs1 & Hl1 & Hc1).
    destruct (sendMail_mxs o tos body _ None (net s)) as [[e|] n1]; simpl in *.
    + exists evs1. split; [done|]. split; [lia|]. by intros [s' [=]].
    + destruct (IH (set_net (Unlock (set_lock s true)) n1)) as (evs2 & Hl2 & Hle & Heq).
      simpl in *. exists (evs1 ++ evs2).
      rewrite Hl2, Hl1, completed_app, <- app_assoc. split; [done|]. split.
      * destruct (default [] (mxAddrs s !! host)); lia.
      * intros Hok Hall. apply Forall_cons in Hall as [Hne Hall]. simpl in Hne.
        rewrite (Heq Hok Hall). destruct (default [] (mxAddrs s !! host)); [done|lia].
Qed.

(** X7.  In one delivery without relay the sessions that end well, with an
    accepted [Quit], are at most as many as the groups: after a session that
    returned nil the group is left.  When every group has a candidate in the
    cache and the delivery returns nil, they are exactly as many as the
    groups: one for each.  (A session refused at [Quit], after its body was
    accepted, counts as failed, and the body goes to the next candidate too:
    see [quit_refused_sends_again].) *)
Theorem one_completed_session_per_group o body s :
  hostport o = "" ->
  let r := EmailOutput_sendMail o body s in
  exists evs,
    log (net (final_state r)) = log (net s) ++ evs /\
    (completed evs <= size (byHost o))%nat /\
    ((forall host tos, byHost o !! host = Some tos ->
        exists mxs, mxs <> [] /\ mxAddrs s !! host = Some mxs) ->
     (exists s', r = Returns None s') ->
     completed evs = size (byHost o)).
Proof.
  intros Hrelay r. subst r. unfold EmailOutput_sendMail. rewrite decide_True by done.
  pose proof (range_byHost_perm (world (net s)) (byHost o)) as Hperm.
  assert (length (range_byHost (world (net s)) (byHost o)) = size (byHost o)) as Hlen.
  { by rewrite Hperm, length_map_to_list. }
  destruct (sendMail_groups_completed o body (range_byHost (world (net s)) (byHost o)) s)
    as (evs & Hl & Hle & Heq).
  exists evs. rewrite <- Hlen. split; [done|]. split; [done|].
  intros Hcand Hok. apply Heq; [done|]. apply Forall_forall. intros [host tos] Hin.
  rewrite Hperm in Hin. apply elem_of_map_to_list in Hin.
  destruct (Hcand host tos Hin) as (mxs & Hne & Hmxs). simpl. by rewrite Hmxs.
Qed.

End Completed.

Lemma one_completed_session_per_group_witness :
  let o := one_recipient_prepared "a@x.com" in
  let s := cached (Env := third_mx_accepts) 0%nat "x.com" x_com_mxs in
  let r := EmailOutput_sendMail (Env := third_mx_accepts) o (Some "hello") s in
  exists evs,
    log (net (final_state r)) = log (net s) ++ evs /\
    (completed evs <= size (byHost o))%nat /\
    ((forall host tos, byHost o !! host = Some tos ->
        exists mxs, mxs <> [] /\ mxAddrs s !! host = Some mxs) ->
     (exists s', r = Returns None s') ->
     completed evs = size (byHost o)).
Proof.
  apply (one_completed_session_per_group (Env := third_mx_accepts)). reflexivity.
Defined.

(** One group, two sessions: the first is refused at [Quit] and counts as
    failed, the body is written again to the second candidate, and one
    session ends well. *)
Example quit_refused_sends_again :
  let o := one_recipient_prepared "a@x.com" in
  let s := cached (Env := first_quit_refused) 0%nat "x.com" x_com_mxs in
  let r := EmailOutput_sendMail (Env := first_quit_refused) o (Some "hello") s in
  r = Returns None (final_state r) /\
  dials (log (net (final_state r))) = [("mx1.x.com:25", 30); ("mx2.x.com:25", 30)] /\
  writes (steps (log (net (final_state r)))) = ["hello"; "hello"] /\
  completed (log (net (final_state r))) = 1%nat.
Proof. by_running. Qed.

(** Two groups, each with a candidate: two sessions end well. *)
Example two_groups_run :
  let o := set_byHost (one_recipient "a@x.com")
             (Prepare_byHost ["a@x.com"; "b@y.com"; "c@x.com"]) in
  let s := final_state (Prepare (Env := third_mx_accepts)
                          {| From := "heka@example.org"; To := ["a@x.com"; "b@y.com"; "c@x.com"];
                             hostport := ""; auth := None; byHost := ∅; tlsConfig := None |}
                          (initial (Env := third_mx_accepts) 0%nat)) in
  let r := EmailOutput_sendMail (Env := third_mx_accepts) o (Some "hello") s in
  r = Returns None (final_state r) /\
  completed (log (net (final_state r))) = 4%nat /\
  completed (log (net s)) = 2%nat /\
  size (byHost o) = 2%nat.
Proof. by_running. Qed.

(** ** The main loop *)

Section MainLoop.
Context `{Env : Environment}.
Implicit Types (o : EmailOutput) (s : State) (inChan : list Message).

Lemma Run_app o pre post : forall s,
  Run o (pre ++ post) s =
    match Run o pre s with
    | Returns None s1 => Run o post s1
    | r => r
    end.
Proof.
  induction pre as [|pack pre IH]; intros s; simpl; [done|].
  destruct (EmailOutput_sendMail o (Some (Run_body pack)) s) as [[e|] s1|s1]; done.
Qed.

Lemma Run_failure o inChan : forall s err s',
  Run o inChan s = Returns (Some err) s' ->
  exists e pre pack post s1,
    err = ErrRun e /\
    inChan = pre ++ pack :: post /\
    Run o pre s = Returns None s1 /\
    EmailOutput_sendMail o (Some (Run_body pack)) s1 = Returns (Some e) s'.
Proof.
  induction inChan as [|pack inChan IH]; intros s err s'; simpl; [done|].
  destruct (EmailOutput_sendMail o (Some (Run_body pack)) s) as [[e|] s1|s1] eqn:Hsend;
    try done.
  - intros [= <- <-]. by exists e, [], pack, inChan, s.
  - intros Hrest. destruct (IH _ _ _ Hrest) as (e & pre & pack' & post & s2 & -> & -> & Hpre & Hfail).
    exists e, (pack :: pre), pack', post, s2. repeat split; try done.
    simpl. by rewrite Hsend.
Qed.

(** X8.  [Run] stops at the first message whose delivery fails: it returns
    that delivery's error wrapped in [ErrRun], in the state that delivery
    left; the messages before it were delivered, and the messages after it
    are never looked at, whatever they are. *)
Theorem Run_stops_at_first_failure o inChan s err s' :
  Run o inChan s = Returns (Some err) s' ->
  exists e pre pack post s1,
    err = ErrRun e /\
    inChan = pre ++ pack :: post /\
    Run o pre s = Returns None s1 /\
    EmailOutput_sendMail o (Some (Run_body pack)) s1 = Returns (Some e) s' /\
    forall post', Run o (pre ++ pack :: post') s = Returns (Some err) s'.
Proof.
  intros Hrun. destruct (Run_failure _ _ _ _ _ Hrun)
    as (e & pre & pack & post & s1 & -> & -> & Hpre & Hfail).
  exists e, pre, pack, post, s1. repeat split; try done.
  intros post'. rewrite Run_app, Hpre. simpl. by rewrite Hfail.
Qed.

End MainLoop.

Lemma Run_stops_at_first_failure_witness :
  let inChan := [message "one"; message "two"; message "three"] in
  let s := initial (Env := relay_fails_later) 0%nat in
  let r := Run (Env := relay_fails_later) with_relay inChan s in
  exists e pre pack post s1,
    ErrRun (LibError "connection refused") = ErrRun e /\
    inChan = pre ++ pack :: post /\
    Run (Env := relay_fails_later) with_relay pre s = Returns None s1 /\
    EmailOutput_sendMail (Env := relay_fails_later) with_relay
      (Some (Run_body (Env := relay_fails_later) pack)) s1
      = Returns (Some e) (final_state r) /\
    forall post', Run (Env := relay_fails_later) with_relay (pre ++ pack :: post') s
                  = Returns (Some (ErrRun (LibError "connection refused"))) (final_state r).
Proof.
  intros inChan s r.
  apply (Run_stops_at_first_failure (Env := relay_fails_later) with_relay inChan s
           (ErrRun (LibError "connection refused")) (final_state r)).
  vm_compute; reflexivity.
Defined.

(** The run of the witness: the first message is written, the second is
    refused at the connection, the third is never sent. *)
Example Run_stops_run :
  let r := Run (Env := relay_fails_later) with_relay
             [message "one"; message "two"; message "three"]
             (initial (Env := relay_fails_later) 0%nat) in
  r = Returns (Some (ErrRun (LibError "connection refused"))) (final_state r) /\
  writes (steps (log (net (final_state r))))
    = [Run_body (Env := relay_fails_later) (message "one")] /\
  length (dials (log (net (final_state r)))) = 2%nat.
Proof. by_running. Qed.

(** ** With a relay *)

Section Relay.
Context `{Env : Environment}.
Implicit Types (o : EmailOutput) (s : State) (inChan : list Message).

Lemma sendMail_relay_log addr a from to msg timeout tls n :
  let r := sendMail addr a from to msg timeout tls n in
  let body := match msg with Some m => [m] | None => [] end in
  exists evs,
    log r.2 = log n ++ evs /\
    lookups evs = [] /\
    dials evs = [(addr, timeout)] /\
    writes (steps evs) `prefix_of` body /\
    (r.1 = None -> writes (steps evs) = body).
Proof.
  intros r body.
  destruct (sendMail_events addr a from to msg timeout tls n) as (evs & Hl & Hk & Hd).
  destruct (sendMail_recipients_body addr a from to msg timeout tls n)
    as (evs' & Hl' & _ & Hw & _ & Hok).
  assert (evs' = evs) as ->.
  { rewrite Hl in Hl'. by apply app_inv_head in Hl'. }
  exists evs. repeat split; try done. intros Hr. by apply Hok.
Qed.

Lemma Run_relay_log o inChan : forall s,
  hostport o <> "" ->
  exists res s' evs,
    Run o inChan s = Returns res s' /\
    mxAddrs s' = mxAddrs s /\
    mxAddrsLock s' = mxAddrsLock s /\
    log (net s') = log (net s) ++ evs /\
    lookups evs = [] /\
    Forall (fun d => d.1 = hostport o) (dials evs) /\
    writes (steps evs) `prefix_of` map Run_body inChan /\
    (res = None -> writes (steps evs) = map Run_body inChan).
Proof.
  intros s Hrelay. revert s.
  induction inChan as [|pack inChan IH]; intros s; simpl.
  - exists None, s, []. by rewrite app_nil_r.
  - unfold EmailOutput_sendMail. rewrite decide_False by done.
    destruct (sendMail_relay_log (hostport o) (auth o) (From o) (To o)
                (Some (Run_body pack)) DefaultTimeout (tlsConfig o) (net s))
      as (evs1 & Hl1 & Hk1 & Hd1 & Hw1 & Hok1).
    destruct (sendMail _ _ _ _ _ _ _ (net s)) as [[e|] n1]; simpl in *.
    + exists (Some (ErrRun e)), (set_net s n1), evs1. repeat split; try done.
      * rewrite Hd1. by repeat constructor.
      * by apply (prefix_app_r _ [Run_body pack]).
    + destruct (IH (set_net s n1))
        as (res & s' & evs2 & Hrun & Hm & Hlock & Hl2 & Hk2 & Hd2 & Hw2 & Hok2).
      exists res, s', (evs1 ++ evs2). simpl in *.
      rewrite Hrun, Hl2, Hl1, lookups_app, Hk1, Hk2, dials_app, Hd1, steps_app, writes_app,
        (Hok1 eq_refl), <- app_assoc.
      repeat split; try done.
      * constructor; [done|]. done.
      * by apply prefix_cons.
      * intros Hres. simpl. by rewrite (Hok2 Hres).
Qed.

(** X9.  With a relay the plugin takes no part in the MX machinery: from
    every state, also one in which the lock is held, [Prepare],
    [EmailOutput.sendMail] and [Run] return; they leave the cache and the
    lock as they are, make no lookup, and dial no address but the relay's. *)
Theorem relay_mode_leaves_lock_and_cache o body inChan s :
  hostport o <> "" ->
  relay_only (hostport o) s (Prepare o s) /\
  relay_only (hostport o) s (EmailOutput_sendMail o body s) /\
  relay_only (hostport o) s (Run o inChan s).
Proof.
  intros Hrelay. refine (conj _ (conj _ _)).
  - unfold Prepare, testMail. rewrite decide_False by done.
    destruct (sendMail_events (hostport o) (auth o) (From o) (To o) None (10 * Second)
                (tlsConfig o) (net s)) as (evs & Hl & Hk & Hd).
    destruct (sendMail _ _ _ _ _ _ _ (net s)) as [err n1]. simpl in *.
    eexists _, _, evs. repeat split; try done. rewrite Hd. by repeat constructor.
  - unfold EmailOutput_sendMail. rewrite decide_False by done.
    destruct (sendMail_events (hostport o) (auth o) (From o) (To o) body DefaultTimeout
                (tlsConfig o) (net s)) as (evs & Hl & Hk & Hd).
    destruct (sendMail _ _ _ _ _ _ _ (net s)) as [err n1]. simpl in *.
    eexists _, _, evs. repeat split; try done. rewrite Hd. by repeat constructor.
  - destruct (Run_relay_log o inChan s Hrelay)
      as (res & s' & evs & Hrun & Hm & Hlock & Hl & Hk & Hd & _).
    by exists res, s', evs.
Qed.

(** X10.  With a relay [Run] writes the bodies of the messages in the order
    of the channel, each at most once and none skipped: what was written is a
    prefix of the bodies of the channel, and all of them when [Run] returns
    nil. *)
Theorem Run_relay_writes_in_order o inChan s :
  hostport o <> "" ->
  exists res s' evs,
    Run o inChan s = Returns res s' /\
    log (net s') = log (net s) ++ evs /\
    writes (steps evs) `prefix_of` map Run_body inChan /\
    (res = None -> writes (steps evs) = map Run_body inChan).
Proof.
  intros Hrelay. destruct (Run_relay_log o inChan s Hrelay)
    as (res & s' & evs & Hrun & _ & _ & Hl & _ & _ & Hw & Hok).
  by exists res, s', evs.
Qed.

End Relay.

Lemma relay_mode_leaves_lock_and_cache_witness :
  let s := set_lock (cached (Env := relay_fails_later) 0%nat "x.com" x_com_mxs) true in
  relay_only (Env := relay_fails_later) (hostport with_relay) s (Prepare with_relay s) /\
  relay_only (Env := relay_fails_later) (hostport with_relay) s
    (EmailOutput_sendMail with_relay (Some "hello") s) /\
  relay_only (Env := relay_fails_later) (hostport with_relay) s
    (Run with_relay [message "one"; message "two"] s).
Proof.
  apply (relay_mode_leaves_lock_and_cache (Env := relay_fails_later)). discriminate.
Defined.

Lemma Run_relay_writes_in_order_witness :
  let inChan := [message "one"; message "two"; message "three"] in
  let s := initial (Env := all_accepted) 0%nat in
  exists res s' evs,
    Run (Env := all_accepted) with_relay inChan s = Returns res s' /\
    log (net s') = log (net s) ++ evs /\
    writes (steps evs) `prefix_of` map (Run_body (Env := all_accepted)) inChan /\
    (res = None -> writes (steps evs) = map (Run_body (Env := all_accepted)) inChan).
Proof.
  apply (Run_relay_writes_in_order (Env := all_accepted)). discriminate.
Defined.

(** Three messages through an accepting relay: three bodies, in order. *)
Example Run_relay_run :
  let inChan := [message "one"; message "two"; message "three"] in
  let r := Run (Env := all_accepted) with_relay inChan (initial (Env := all_accepted) 0%nat) in
  r = Returns None (final_state r) /\
  writes (steps (log (net (final_state r)))) = map (Run_body (Env := all_accepted)) inChan.
Proof. by_running. Qed.

(** ** Properties of every call of a probe or of a delivery *)

Lemma smtp_only_all P evs :
  forallb (smtp_only P) evs = true -> forallb (smtp_all P) evs = true.
Proof.
  induction evs as [|[] evs IH]; simpl; try done.
  rewrite !andb_true_iff. intros [? ?]. auto.
Qed.

(** What holds of every call of every probe session holds of every call of
    [Prepare] without relay. *)
Section ProbeCalls.
Context `{Env : Environment}.
Variable P : Step -> bool.
Hypothesis P_probe : forall addr from to tls,
  session_spec P (testMail addr None from to (10 * Second) tls).
Implicit Types (o : EmailOutput) (s : State) (n : Net) (mxs : list MX) (tos : list string).

Lemma Prepare_mxs_all o tos mxs : forall err n,
  exists evs, log (Prepare_mxs o tos mxs err n).2 = log n ++ evs /\
              forallb (smtp_all P) evs = true.
Proof.
  induction mxs as [|mx mxs IH]; intros err n; simpl.
  - exists []. by rewrite app_nil_r.
  - destruct (P_probe (Host mx +:+ ":25") (From o) tos (tlsConfig o) n) as [evs1 [Hl1 Ha1 _]].
    apply smtp_only_all in Ha1.
    destruct (testMail _ _ _ _ _ _ n) as [[e|] n1]; simpl in *; [|by exists evs1].
    destruct (IH (Some e) n1) as (evs2 & Hl2 & Ha2). exists (evs1 ++ evs2).
    by rewrite Hl2, Hl1, forallb_app, Ha1, Ha2, <- app_assoc.
Qed.

Lemma Prepare_resolve_all host s :
  exists evs, log (net (final_state (Prepare_resolve host s))) = log (net s) ++ evs /\
              forallb (smtp_all P) evs = true.
Proof.
  unfold Prepare_resolve, Lock. destruct (mxAddrsLock s); simpl.
  { exists []. by rewrite app_nil_r. }
  destruct (mxAddrs s !! host) as [mxs|]; simpl.
  { exists []. by rewrite app_nil_r. }
  destruct (LookupMX (world (net s)) host) as [[mxs err] w]. simpl.
  exists [Lookup host mxs err]. by destruct err.
Qed.

Lemma Prepare_groups_all o groups : forall err s,
  exists evs, log (net (final_state (Prepare_groups o groups err s))) = log (net s) ++ evs /\
              forallb (smtp_all P) evs = true.
Proof.
  induction groups as [|[host tos] groups IH]; intros err s; simpl.
  - exists []. by rewrite app_nil_r.
  - destruct (Prepare_resolve_all host s) as (evs0 & Hl0 & Ha0).
    destruct (Prepare_resolve host s) as [[mxs|e] s1|s1]; simpl in *;
      [|by exists evs0|by exists evs0].
    destruct (Prepare_mxs_all o tos mxs
                (match mxAddrs s !! host with Some _ => err | None => None end) (net s1))
      as (evs1 & Hl1 & Ha1).
    destruct (Prepare_mxs o tos mxs _ (net s1)) as [[[] err'] n1]; simpl in *.
    + destruct (IH err' (set_net s1 n1)) as (evs2 & Hl2 & Ha2). simpl in *.
      exists (evs0 ++ evs1 ++ evs2).
      by rewrite Hl2, Hl1, Hl0, !forallb_app, Ha0, Ha1, Ha2, <- !app_assoc.
    + exists (evs0 ++ evs1). by rewrite Hl1, Hl0, forallb_app, Ha0, Ha1, <- app_assoc.
Qed.

Lemma Prepare_no_relay_all o s :
  hostport o = "" ->
  exists evs, log (net (final_state (Prepare o s))) = log (net s) ++ evs /\
              forallb (smtp_all P) evs = true.
Proof.
  intros Hrelay. unfold Prepare. rewrite decide_True by done.
  destruct (Prepare_groups_all (set_byHost o (Prepare_byHost (To o)))
              (range_byHost (world (net s)) (byHost (set_byHost o (Prepare_byHost (To o)))))
              None s) as (evs & Hl & Ha).
  exists evs. split; [|done]. by destruct (Prepare_groups _ _ _ _).
Qed.

End ProbeCalls.

(** What holds of every call of every session with the body [body] holds of
    every call of a delivery of [body] without relay. *)
Section DeliveryCalls.
Context `{Env : Environment}.
Variable P : Step -> bool.
Variable body : option string.
Hypothesis P_delivery : forall addr from to tls,
  session_spec P (sendMail addr None from to body 30 tls).
Implicit Types (o : EmailOutput) (s : State) (n : Net) (mxs : list MX) (tos : list string).

Lemma sendMail_mxs_all o tos mxs : forall err n,
  exists evs, log (sendMail_mxs o tos body mxs err n).2 = log n ++ evs /\
              forallb (smtp_all P) evs = true.
Proof.
  induction mxs as [|mx mxs IH]; intros err n; simpl.
  - exists []. by rewrite app_nil_r.
  - destruct (P_delivery (Host mx +:+ ":25") (From o) tos (tlsConfig o) n)
      as [evs1 [Hl1 Ha1 _]].
    apply smtp_only_all in Ha1.
    destruct (sendMail _ _ _ _ _ _ _ n) as [[e|] n1]; simpl in *; [|by exists evs1].
    destruct (IH (Some e) n1) as (evs2 & Hl2 & Ha2). exists (evs1 ++ evs2).
    by rewrite Hl2, Hl1, forallb_app, Ha1, Ha2, <- app_assoc.
Qed.

Lemma sendMail_groups_all o groups : forall s,
  exists evs, log (net (final_state (sendMail_groups o body groups s))) = log (net s) ++ evs /\
              forallb (smtp_all P) evs = true.
Proof.
  induction groups as [|[host tos] groups IH]; intros s; simpl.
  - exists []. by rewrite app_nil_r.
  - unfold Lock. destruct (mxAddrsLock s); simpl.
    { exists []. by rewrite app_nil_r. }
    destruct (sendMail_mxs_all o tos (default [] (mxAddrs s !! host)) None (net s))
      as (evs1 & Hl1 & Ha1).
    destruct (sendMail_mxs o tos body _ None (net s)) as [[e|] n1]; simpl in *;
      [by exists evs1|].
    destruct (IH (set_net (Unlock (set_lock s true)) n1)) as (evs2 & Hl2 & Ha2).
    simpl in *. exists (evs1 ++ evs2).
    by rewrite Hl2, Hl1, forallb_app, Ha1, Ha2, <- app_assoc.
Qed.

End DeliveryCalls.

(** ** Without a relay, no authentication *)

Section NoAuth.
Context `{Env : Environment}.
Implicit Types (o : EmailOutput) (s : State).

Lemma sendMail_no_auth addr from to msg timeout tls :
  session_spec no_auth (sendMail addr None from to msg timeout tls).
Proof. unfold sendMail. destruct msg; session_steps. Qed.

(** X11.  Without a relay nothing is authenticated: whatever credentials the
    plugin holds and whatever the servers advertise, neither the probe of
    [Prepare] nor a delivery makes an Auth call. *)
Theorem no_relay_no_authentication o body s :
  hostport o = "" ->
  (exists evs, log (net (final_state (Prepare o s))) = log (net s) ++ evs /\
               forallb (smtp_all no_auth) evs = true) /\
  (exists evs, log (net (final_state (EmailOutput_sendMail o body s))) = log (net s) ++ evs /\
               forallb (smtp_all no_auth) evs = true).
Proof.
  intros Hrelay. split.
  - apply Prepare_no_relay_all; [|done]. intros. apply sendMail_no_auth.
  - unfold EmailOutput_sendMail. rewrite decide_True by done.
    apply sendMail_groups_all. intros. apply sendMail_no_auth.
Qed.

End NoAuth.

Lemma no_relay_no_authentication_witness :
  let o := one_recipient_with_auth "a@x.com" in
  let s := initial (Env := all_advertised) 0%nat in
  (exists evs, log (net (final_state (Prepare (Env := all_advertised) o s)))
               = log (net s) ++ evs /\
               forallb (smtp_all no_auth) evs = true) /\
  (exists evs, log (net (final_state (EmailOutput_sendMail (Env := all_advertised) o
                                        (Some "hello") s))) = log (net s) ++ evs /\
               forallb (smtp_all no_auth) evs = true).
Proof.
  apply (no_relay_no_authentication (Env := all_advertised)). reflexivity.
Defined.

(** The probe of the witness: the server advertises AUTH and STARTTLS, the
    plugin holds credentials, and the session upgrades to TLS but does not
    authenticate. *)
Example no_relay_probe_run :
  steps (log (net (final_state
    (Prepare (Env := all_advertised) (one_recipient_with_auth "a@x.com")
       (initial (Env := all_advertised) 0%nat)))))
  = [ Dial "mx.example.com:25" (10 * Second); NewClient "mx.example.com";
      Hello "localhost"; StartTLS None; Mail "heka@example.org"; Rcpt "a@x.com"; Quit ].
Proof. by_running. Qed.

(** ** The host of a recipient *)

Lemma HasPrefix_char s c :
  HasPrefix s (String c "") = match s with
                              | EmptyString => false
                              | String d _ => Ascii.eqb c d
                              end.
Proof.
  destruct s as [|d s]; simpl; [done|]. destruct (Ascii.eqb c d); [|done]. by destruct s.
Qed.

Lemma Index_from_absent c s : forall i,
  has_char c s = false -> Index_from s (String c "") i = -1.
Proof.
  induction s as [|d s IH]; intros i Habsent; [done|].
  cbn [Index_from]. rewrite HasPrefix_char. simpl in Habsent.
  destruct (Ascii.eqb c d); [done|]. by apply IH.
Qed.

Lemma Index_from_first c l r : forall i,
  has_char c l = false -> Index_from (l +:+ String c r) (String c "") i = i + len l.
Proof.
  induction l as [|d l IH]; intros i Hl.
  - change ("" +:+ String c r) with (String c r). cbn [Index_from].
    rewrite HasPrefix_char, Ascii.eqb_refl. unfold len. simpl. lia.
  - change (String d l +:+ String c r) with (String d (l +:+ String c r)).
    cbn [Index_from]. rewrite HasPrefix_char. simpl in Hl.
    destruct (Ascii.eqb c d); [done|]. rewrite IH by done.
    unfold len. simpl String.length. lia.
Qed.

Lemma string_app_assoc l m r : (l +:+ m) +:+ r = l +:+ m +:+ r.
Proof.
  induction l as [|d l IH]; [done|].
  change (String d ((l +:+ m) +:+ r) = String d (l +:+ m +:+ r)). by rewrite IH.
Qed.

Lemma string_length_app l r :
  String.length (l +:+ r) = (String.length l + String.length r)%nat.
Proof.
  induction l as [|d l IH]; [done|].
  change (S (String.length (l +:+ r)) = S (String.length l + String.length r)).
  by rewrite IH.
Qed.

Lemma string_drop_app l r : string_drop (String.length l) (l +:+ r) = r.
Proof. induction l as [|d l IH]; [done|]. exact IH. Qed.

(** X12.  The host of a recipient is what follows its first "@"; a recipient
    without "@" is taken whole as its own host, and one that ends in its
    only "@" has the empty host. *)
Theorem Prepare_host_after_first_at :
  (forall tos, has_char at_sign tos = false -> Prepare_host tos = tos) /\
  (forall l r, has_char at_sign l = false -> Prepare_host (l +:+ "@" +:+ r) = r).
Proof.
  split.
  - intros tos Habsent. unfold Prepare_host.
    assert (Index tos "@" = -1) as -> by exact (Index_from_absent at_sign tos 0 Habsent).
    done.
  - intros l r Hl. unfold Prepare_host.
    assert (Index (l +:+ "@" +:+ r) "@" = 0 + len l) as ->
      by exact (Index_from_first at_sign l r 0 Hl).
    unfold slice_from, len.
    replace (Z.to_nat (0 + Z.of_nat (String.length l) + 1))
      with (String.length (l +:+ "@")).
    + rewrite <- string_app_assoc. apply string_drop_app.
    + rewrite string_length_app. simpl String.length. lia.
Qed.

Example Prepare_host_examples :
  Prepare_host "a@x.com" = "x.com" /\
  Prepare_host "a@b@x.com" = "b@x.com" /\
  Prepare_host "postmaster" = "postmaster" /\
  Prepare_host "a@" = "".
Proof. by_running. Qed.

(** ** A lookup that finds no MX host *)

Section EmptyLookup.
Context `{Env : Environment}.
Implicit Types (o : EmailOutput) (s : State).

(** X13.  When the lookup for a host returns no MX record and no error,
    [Prepare] stores the empty list in the cache, releases the lock and fails
    with [ErrTestSend]; from then on, after whatever calls, the cache holds
    the empty list for that host, and every [Prepare] that reaches the host
    with the lock free fails in the same way without a new lookup. *)
Theorem empty_lookup_is_cached o host tos groups err s w :
  mxAddrsLock s = false ->
  mxAddrs s !! host = None ->
  LookupMX (world (net s)) host = (([], None), w) ->
  let r := Prepare_groups o ((host, tos) :: groups) err s in
  let s1 := final_state r in
  r = Returns (Some (ErrTestSend (From o) tos [] None)) s1 /\
  mxAddrsLock s1 = false /\
  forall ops o' tos' groups' err',
    let s2 := execs ops s1 in
    mxAddrs s2 !! host = Some [] /\
    (mxAddrsLock s2 = false ->
     Prepare_groups o' ((host, tos') :: groups') err' s2
       = Returns (Some (ErrTestSend (From o') tos' [] err')) s2).
Proof.
  intros Hlock Hmiss Hdns r s1. subst s1 r. cbn [Prepare_groups].
  rewrite (Prepare_resolve_miss host s [] w Hlock Hmiss Hdns), Hmiss. simpl.
  split; [done|]. split; [done|]. intros ops o' tos' groups' err'.
  match goal with |- context [execs ops ?s1] => set (s2 := execs ops s1) end.
  assert (mxAddrs s2 !! host = Some []) as Hhit.
  { eapply lookup_weaken; [|apply execs_mono]. simpl. apply lookup_insert_eq. }
  split; [done|]. intros Hfree. cbn [Prepare_groups].
  rewrite (Prepare_resolve_hit host s2 [] Hfree Hhit), Hhit. simpl.
  f_equal. by destruct s2.
Qed.

End EmptyLookup.

Lemma empty_lookup_is_cached_witness :
  let o := one_recipient_prepared "a@x.com" in
  let s := initial (Env := no_mx) 0%nat in
  let r := Prepare_groups (Env := no_mx) o [("x.com", ["a@x.com"])] None s in
  let s1 := final_state r in
  r = Returns (Some (ErrTestSend (From o) ["a@x.com"] [] None)) s1 /\
  mxAddrsLock s1 = false /\
  forall ops o' tos' groups' err',
    let s2 := execs (Env := no_mx) ops s1 in
    mxAddrs s2 !! "x.com" = Some [] /\
    (mxAddrsLock s2 = false ->
     Prepare_groups (Env := no_mx) o' (("x.com", tos') :: groups') err' s2
       = Returns (Some (ErrTestSend (From o') tos' [] err')) s2).
Proof.
  apply (empty_lookup_is_cached (Env := no_mx) (one_recipient_prepared "a@x.com")
           "x.com" ["a@x.com"] [] None (initial (Env := no_mx) 0%nat) 1%nat);
    reflexivity.
Defined.

(** The run of the witness through [Prepare]: one lookup for the two calls,
    and a delivery in between that makes no session and reports none
    missing. *)
Example empty_lookup_run :
  let o := one_recipient "a@x.com" in
  let r1 := Prepare (Env := no_mx) o (initial (Env := no_mx) 0%nat) in
  let r2 := EmailOutput_sendMail (Env := no_mx) (one_recipient_prepared "a@x.com")
              (Some "hello") (final_state r1) in
  let r3 := Prepare (Env := no_mx) o (final_state r2) in
  r1 = Returns (Some (ErrTestSend "heka@example.org" ["a@x.com"] [] None),
                one_recipient_prepared "a@x.com") (final_state r1) /\
  r2 = Returns None (final_state r1) /\
  r3 = r1 /\
  lookups (log (net (final_state r3))) = ["x.com"].
Proof. by_running. Qed.

(** ** [Init] and the address of the relay *)

Lemma string_take_app l r : string_take (String.length l) (l +:+ r) = l.
Proof.
  induction l as [|d l IH]; [by destruct r|].
  change (String d (string_take (String.length l) (l +:+ r)) = String d l). by rewrite IH.
Qed.

Lemma string_app_nil_r l : l +:+ "" = l.
Proof.
  induction l as [|d l IH]; [done|]. change (String d (l +:+ "") = String d l). by rewrite IH.
Qed.

Lemma string_app_not_nil l r : r <> "" -> l +:+ r <> "".
Proof. destruct l; [done|]. discriminate. Qed.

Section InitRelay.
Context `{Env : Environment}.
Implicit Types (o : EmailOutput) (conf : EmailOutputConfig) (s : State).

(** X14.  [Init] with an address: an address without ":" gets ":25"
    appended, an address with ":" is taken as it is; the host given to
    [smtp.PlainAuth] is the address up to its first ":"; credentials are
    set only with a user name; and [Init] probes the relay at that address
    once, with a timeout of ten seconds, without any lookup. *)
Theorem Init_relay_address o conf s l rest :
  Address conf = l +:+ rest ->
  has_char colon l = false ->
  (rest = "" /\ l <> "") \/ (exists r, rest = ":" +:+ r) ->
  let addr := if decide (rest = "") then l +:+ ":25" else l +:+ rest in
  exists err o' s' evs,
    Init o conf s = Returns (err, o') s' /\
    hostport o' = addr /\
    From o' = conf_From conf /\
    To o' = conf_To conf /\
    auth o' = (if decide (Username conf = "") then auth o
               else Some (PlainAuth "" (Username conf) (Password conf) l)) /\
    log (net s') = log (net s) ++ evs /\
    dials evs = [(addr, 10 * Second)] /\
    lookups evs = [].
Proof.
  intros Haddr Hl Hrest addr.
  assert (Address conf <> "" /\
          (if 0 <=? Index (Address conf) ":" then Address conf else Address conf +:+ ":25")
            = addr /\
          (if 0 <=? Index (Address conf) ":"
           then slice_to (Address conf) (Index (Address conf) ":") else Address conf) = l)
    as (Hne & Hport & Hhost).
  { rewrite Haddr. subst addr. destruct Hrest as [[-> Hlne]|[r ->]].
    - rewrite string_app_nil_r.
      assert (Index l ":" = -1) as -> by exact (Index_from_absent colon l 0 Hl).
      rewrite decide_True by done. done.
    - assert (Index (l +:+ ":" +:+ r) ":" = 0 + len l) as ->
        by exact (Index_from_first colon l r 0 Hl).
      rewrite decide_False by done.
      assert ((0 <=? 0 + len l) = true) as -> by (apply Z.leb_le; unfold len; lia).
      split; [by apply string_app_not_nil|]. split; [done|].
      unfold slice_to, len. rewrite Z.add_0_l, Nat2Z.id. apply string_take_app. }
  assert (addr <> "") as Haddr_ne.
  { subst addr. destruct (decide (rest = "")); apply string_app_not_nil; [done|].
    destruct Hrest as [[? _]|[r ->]]; done. }
  unfold Init. rewrite !(decide_False (P := Address conf = "")) by done.
  rewrite Hport, Hhost. unfold Prepare. cbn [hostport]. rewrite decide_False by done.
  cbn [To From auth tlsConfig byHost]. unfold testMail.
  match goal with
  | |- context [sendMail addr ?a ?from ?to None ?t ?tls (net s)] =>
      destruct (sendMail_events addr a from to None t tls (net s)) as (evs & Hlog & Hk & Hd);
      destruct (sendMail addr a from to None t tls (net s)) as [err n1]
  end.
  simpl in Hlog. eexists err, _, _, evs. split; [reflexivity|].
  destruct err; simpl; repeat split; try done; by destruct (decide (Username conf = "")).
Qed.

End InitRelay.

Lemma Init_relay_address_witness :
  let conf := {| Address := "smtp.example.com"; Username := "heka"; Password := "secret";
                 conf_From := "heka@example.org"; conf_To := ["ops@example.com"];
                 NoCertCheck := false |} in
  let o := one_recipient "unused@example.com" in
  let s := initial (Env := all_accepted) 0%nat in
  exists err o' s' evs,
    Init (Env := all_accepted) o conf s = Returns (err, o') s' /\
    hostport o' = "smtp.example.com:25" /\
    From o' = conf_From conf /\
    To o' = conf_To conf /\
    auth o' = (if decide (Username conf = "") then auth o
               else Some (PlainAuth "" (Username conf) (Password conf) "smtp.example.com")) /\
    log (net s') = log (net s) ++ evs /\
    dials evs = [("smtp.example.com:25", 10 * Second)] /\
    lookups evs = [].
Proof.
  intros conf o s.
  apply (Init_relay_address (Env := all_accepted) o conf s "smtp.example.com" "");
    [reflexivity|reflexivity|by left].
Defined.

(** An address with a port: the port is kept and the host given to
    [smtp.PlainAuth] stops at the colon. *)
Example Init_with_port_run :
  let conf := {| Address := "smtp.example.com:587"; Username := "heka"; Password := "secret";
                 conf_From := "heka@example.org"; conf_To := ["ops@example.com"];
                 NoCertCheck := true |} in
  let r := Init (Env := all_advertised) (one_recipient "unused@example.com") conf
             (initial (Env := all_advertised) 0%nat) in
  (exists o', r = Returns (None, o') (final_state r) /\
              hostport o' = "smtp.example.com:587" /\
              byHost o' = {[ "" := ["ops@example.com"] ]}) /\
  steps (log (net (final_state r)))
  = [ Dial "smtp.example.com:587" (10 * Second); NewClient "smtp.example.com";
      Hello "localhost"; StartTLS (Some {| InsecureSkipVerify := true |});
      DoAuth (PlainAuth "" "heka" "secret" "smtp.example.com");
      Mail "heka@example.org"; Rcpt "ops@example.com"; Quit ].
Proof. cbv zeta. split; [eexists; repeat apply conj|]; vm_compute; reflexivity. Qed.

(** ** The probe *)

Section Probe.
Context `{Env : Environment}.
Implicit Types (o : EmailOutput) (conf : EmailOutputConfig) (s : State).

Lemma testMail_probe_steps addr a from to tls :
  session_spec probe_step (testMail addr a from to (10 * Second) tls).
Proof. unfold testMail, sendMail. destruct a; session_steps. Qed.

Lemma Prepare_probe_steps o s :
  exists evs, log (net (final_state (Prepare o s))) = log (net s) ++ evs /\
              forallb (smtp_all probe_step) evs = true.
Proof.
  destruct (decide (hostport o = "")) as [Hrelay|Hrelay].
  - apply Prepare_no_relay_all; [|done]. intros. apply testMail_probe_steps.
  - unfold Prepare. rewrite decide_False by done.
    destruct (testMail_probe_steps (hostport o) (auth o) (From o) (To o) (tlsConfig o) (net s))
      as [evs [Hl Ha _]].
    destruct (testMail _ _ _ _ _ _ (net s)) as [err n1]. simpl in *.
    exists evs. split; [done|]. by apply smtp_only_all.
Qed.

(** X15.  [Prepare] and [Init] never transmit a body: in either mode, from
    every state and whatever the servers answer, none of the calls they make
    is Data, Write or Close, and every connection they open is dialled with a
    timeout of ten seconds. *)
Theorem Prepare_and_Init_only_probe o conf s :
  (exists evs, log (net (final_state (Prepare o s))) = log (net s) ++ evs /\
               forallb (smtp_all probe_step) evs = true) /\
  (exists evs, log (net (final_state (Init o conf s))) = log (net s) ++ evs /\
               forallb (smtp_all probe_step) evs = true).
Proof. split; [|unfold Init]; apply Prepare_probe_steps. Qed.

End Probe.

(** ** Where the lock is left *)

Section LockState.
Context `{Env : Environment}.
Implicit Types (o : EmailOutput) (s : State) (inChan : list Message).

Lemma Prepare_resolve_returns host s :
  mxAddrsLock s = false ->
  (exists mxs s1, Prepare_resolve host s = Returns (inl mxs) s1 /\ mxAddrsLock s1 = false) \/
  (exists e s1, Prepare_resolve host s = Returns (inr (ErrLookupMX host e)) s1 /\
                mxAddrsLock s1 = true).
Proof.
  intros Hlock. unfold Prepare_resolve, Lock. rewrite Hlock. simpl.
  destruct (mxAddrs s !! host) as [mxs|]; simpl; [left; by eexists _, _|].
  destruct (LookupMX (world (net s)) host) as [[mxs [e|]] w]; simpl.
  - right. by eexists _, _.
  - left. by eexists _, _.
Qed.

Lemma Prepare_groups_lock o groups : forall err s,
  mxAddrsLock s = false ->
  exists res s',
    Prepare_groups o groups err s = Returns res s' /\
    mxAddrsLock s' = match res with Some (ErrLookupMX _ _) => true | _ => false end.
Proof.
  induction groups as [|[host tos] groups IH]; intros err s Hlock; simpl.
  - by exists None, s.
  - destruct (Prepare_resolve_returns host s Hlock)
      as [(mxs & s1 & -> & Hfree)|(e & s1 & -> & Hheld)]; [|by eexists _, _].
    destruct (Prepare_mxs o tos mxs _ (net s1)) as [[[] err'] n1].
    + by apply IH.
    + by eexists _, _.
Qed.

(** X16.  From a state in which the lock is free, [Prepare] without relay
    always returns, and it returns with the lock held exactly when the error
    it returns is the error of a lookup. *)
Theorem Prepare_holds_lock_iff_lookup_error o s :
  hostport o = "" ->
  mxAddrsLock s = false ->
  exists res o' s',
    Prepare o s = Returns (res, o') s' /\
    mxAddrsLock s' = match res with Some (ErrLookupMX _ _) => true | _ => false end.
Proof.
  intros Hrelay Hlock. unfold Prepare. rewrite decide_True by done.
  destruct (Prepare_groups_lock (set_byHost o (Prepare_byHost (To o)))
              (range_byHost (world (net s)) (byHost (set_byHost o (Prepare_byHost (To o)))))
              None s Hlock) as (res & s' & -> & Hstate).
  by eexists _, _, _.
Qed.

Lemma sendMail_groups_lock o body groups : forall s,
  mxAddrsLock s = false ->
  exists res s',
    sendMail_groups o body groups s = Returns res s' /\
    mxAddrsLock s' = false /\ mxAddrs s' = mxAddrs s.
Proof.
  induction groups as [|[host tos] groups IH]; intros s Hlock; simpl.
  - by exists None, s.
  - unfold Lock. rewrite Hlock. simpl.
    destruct (sendMail_mxs o tos body _ None (net s)) as [[e|] n1].
    + by eexists _, _.
    + destruct (IH (set_net (Unlock (set_lock s true)) n1) eq_refl) as (res & s' & -> & ? & ?).
      by eexists _, _.
Qed.

Lemma EmailOutput_sendMail_lock o body s :
  mxAddrsLock s = false ->
  exists res s',
    EmailOutput_sendMail o body s = Returns res s' /\
    mxAddrsLock s' = false /\ mxAddrs s' = mxAddrs s.
Proof.
  intros Hlock. unfold EmailOutput_sendMail. destruct (decide (hostport o = "")).
  - by apply sendMail_groups_lock.
  - destruct (sendMail _ _ _ _ _ _ _ (net s)) as [err n1]. by eexists _, _.
Qed.

(** X17.  A delivery releases the lock on every path: from a state in which
    the lock is free, [EmailOutput.sendMail] and [Run] always return, in
    either mode, with the lock free and the cache as it was. *)
Theorem delivery_releases_lock o body inChan s :
  mxAddrsLock s = false ->
  (exists res s',
     EmailOutput_sendMail o body s = Returns res s' /\
     mxAddrsLock s' = false /\ mxAddrs s' = mxAddrs s) /\
  (exists res s',
     Run o inChan s = Returns res s' /\
     mxAddrsLock s' = false /\ mxAddrs s' = mxAddrs s).
Proof.
  intros Hlock. split; [by apply EmailOutput_sendMail_lock|].
  revert s Hlock. induction inChan as [|pack inChan IH]; intros s Hlock; simpl.
  - by exists None, s.
  - destruct (EmailOutput_sendMail_lock o (Some (Run_body pack)) s Hlock)
      as (res & s1 & -> & Hfree & Hcache).
    destruct res as [e|]; [by eexists _, _|].
    destruct (IH s1 Hfree) as (res & s' & -> & ? & ?). eexists _, _.
    repeat split; [done|congruence].
Qed.

End LockState.

Lemma Prepare_holds_lock_iff_lookup_error_witness :
  let s := initial (Env := dns_fails_once) 0%nat in
  exists res o' s',
    Prepare (Env := dns_fails_once) (one_recipient "a@x.com") s = Returns (res, o') s' /\
    mxAddrsLock s' = match res with Some (ErrLookupMX _ _) => true | _ => false end.
Proof.
  apply (Prepare_holds_lock_iff_lookup_error (Env := dns_fails_once)); reflexivity.
Defined.

Lemma delivery_releases_lock_witness :
  let o := one_recipient_prepared "a@x.com" in
  let s := cached (Env := no_connection) 0%nat "x.com" x_com_mxs in
  (exists res s',
     EmailOutput_sendMail (Env := no_connection) o (Some "hello") s = Returns res s' /\
     mxAddrsLock s' = false /\ mxAddrs s' = mxAddrs s) /\
  (exists res s',
     Run (Env := no_connection) o [message "one"; message "two"] s = Returns res s' /\
     mxAddrsLock s' = false /\ mxAddrs s' = mxAddrs s).
Proof.
  apply (delivery_releases_lock (Env := no_connection)). reflexivity.
Defined.

(** The three ways [Prepare] ends from a free lock: a failed lookup (lock
    held), a failed probe (lock free), success (lock free). *)
Example Prepare_lock_runs :
  let o := one_recipient "a@x.com" in
  mxAddrsLock (final_state (Prepare (Env := dns_fails_once) o
                                    (initial (Env := dns_fails_once) 0%nat))) = true /\
  mxAddrsLock (final_state (Prepare (Env := no_connection) o
                                    (initial (Env := no_connection) 0%nat))) = false /\
  mxAddrsLock (final_state (Prepare (Env := all_accepted) o
                                    (initial (Env := all_accepted) 0%nat))) = false.
Proof. by_running. Qed.

(** ** A delivery dials the cached candidates only *)

Section Candidates.
Context `{Env : Environment}.
Implicit Types (o : EmailOutput) (s : State) (body : option string).

Lemma sendMail_groups_dials o body groups : forall s,
  exists evs,
    log (net (final_state (sendMail_groups o body groups s))) = log (net s) ++ evs /\
    Forall (fun d => exists host tos mxs mx,
                       (host, tos) ∈ groups /\ mxAddrs s !! host = Some mxs /\
                       mx ∈ mxs /\ d = mx_dial 30 mx)
           (dials evs).
Proof.
  induction groups as [|[host tos] groups IH]; intros s; simpl.
  - exists []. by rewrite app_nil_r.
  - unfold Lock. destruct (mxAddrsLock s); simpl.
    { exists []. by rewrite app_nil_r. }
    destruct (sendMail_mxs_events o tos body (default [] (mxAddrs s !! host)) None (net s))
      as (k & evs1 & Hl1 & _ & Hd1).
    assert (Forall (fun d => exists host' tos' mxs mx,
                      (host', tos') ∈ (host, tos) :: groups /\
                      mxAddrs s !! host' = Some mxs /\ mx ∈ mxs /\ d = mx_dial 30 mx)
                   (dials evs1)) as Hhere.
    { rewrite Hd1. apply Forall_forall. intros d [mx [-> Hmx]]%list_elem_of_fmap.
      apply (subseteq_take k) in Hmx.
      destruct (mxAddrs s !! host) as [mxs|] eqn:Hcache; simpl in Hmx.
      - exists host, tos, mxs, mx. repeat split; try done. apply list_elem_of_here.
      - by apply not_elem_of_nil in Hmx. }
    destruct (sendMail_mxs o tos body _ None (net s)) as [[e|] n1]; simpl in *;
      [by exists evs1|].
    destruct (IH (set_net (Unlock (set_lock s true)) n1)) as (evs2 & Hl2 & Hd2). simpl in *.
    exists (evs1 ++ evs2). rewrite Hl2, Hl1, dials_app, <- app_assoc. split; [done|].
    apply Forall_app. split; [done|]. eapply Forall_impl; [exact Hd2|].
    intros d (host' & tos' & mxs & mx & Hin & ? & ? & ?).
    exists host', tos', mxs, mx. repeat split; try done. by apply list_elem_of_further.
Qed.

(** X18.  A delivery without relay connects to nothing but port 25 of MX
    hosts that the cache holds for the host of one of the plugin's groups. *)
Theorem delivery_dials_cached_candidates o body s :
  hostport o = "" ->
  exists evs,
    log (net (final_state (EmailOutput_sendMail o body s))) = log (net s) ++ evs /\
    Forall (fun d => exists host tos mxs mx,
                       byHost o !! host = Some tos /\ mxAddrs s !! host = Some mxs /\
                       mx ∈ mxs /\ d = (Host mx +:+ ":25", 30))
           (dials evs).
Proof.
  intros Hrelay. unfold EmailOutput_sendMail. rewrite decide_True by done.
  destruct (sendMail_groups_dials o body (range_byHost (world (net s)) (byHost o)) s)
    as (evs & Hl & Hd).
  exists evs. split; [done|]. eapply Forall_impl; [exact Hd|].
  intros d (host & tos & mxs & mx & Hin & ? & ? & ?).
  exists host, tos, mxs, mx. repeat split; try done.
  apply elem_of_map_to_list. by rewrite <- (range_byHost_perm (world (net s))).
Qed.

End Candidates.

Lemma delivery_dials_cached_candidates_witness :
  let o := one_recipient_prepared "a@x.com" in
  let s := cached (Env := third_mx_accepts) 0%nat "x.com" x_com_mxs in
  exists evs,
    log (net (final_state (EmailOutput_sendMail (Env := third_mx_accepts) o (Some "hello") s)))
    = log (net s) ++ evs /\
    Forall (fun d => exists host tos mxs mx,
                       byHost o !! host = Some tos /\ mxAddrs s !! host = Some mxs /\
                       mx ∈ mxs /\ d = (Host mx +:+ ":25", 30))
           (dials evs).
Proof.
  apply (delivery_dials_cached_candidates (Env := third_mx_accepts)). reflexivity.
Defined.

(** ** A group is passed only after a successful session *)

Section Delivered.
Context `{Env : Environment}.
Implicit Types (o : EmailOutput) (s : State) (n : Net) (mxs : list MX)
  (tos : list string) (body : option string).

(** A group with a candidate is passed without error only after a session
    of this delivery succeeded. *)
Lemma sendMail_mxs_delivered o tos body mxs : forall err n n',
  mxs <> [] ->
  sendMail_mxs o tos body mxs err n = (None, n') ->
  exists pre mx post n1 before,
    mxs = pre ++ mx :: post /\
    sendMail (Host mx +:+ ":25") None (From o) tos body 30 (tlsConfig o) n1 = (None, n') /\
    log n1 = log n ++ before.
Proof.
  induction mxs as [|mx mxs IH]; intros err n n' Hne; [done|]. simpl.
  destruct (sendMail_log (Host mx +:+ ":25") None (From o) tos body 30 (tlsConfig o) n)
    as (evs1 & Hl1 & _).
  destruct (sendMail _ _ _ _ _ _ _ n) as [[e|] n1] eqn:Hsession; simpl in Hl1.
  - intros Hrest. destruct mxs as [|mx' mxs]; [done|].
    destruct (IH _ _ _ ltac:(done) Hrest) as (pre & mx0 & post & n2 & before & Hmxs & Hok & Hl2).
    exists (mx :: pre), mx0, post, n2, (evs1 ++ before). rewrite Hmxs.
    split; [done|]. split; [done|]. by rewrite Hl2, Hl1, <- app_assoc.
  - intros [= <-]. exists [], mx, mxs, n, []. by rewrite app_nil_r.
Qed.

Lemma sendMail_groups_delivered o body groups : forall s s',
  sendMail_groups o body groups s = Returns None s' ->
  forall host tos mxs,
    (host, tos) ∈ groups -> mxAddrs s !! host = Some mxs -> mxs <> [] ->
    exists pre mx post n1 n2 before after,
      mxs = pre ++ mx :: post /\
      sendMail (Host mx +:+ ":25") None (From o) tos body 30 (tlsConfig o) n1 = (None, n2) /\
      log n1 = log (net s) ++ before /\ log (net s') = log n2 ++ after.
Proof.
  induction groups as [|[h t] groups IH]; intros s s' Hrun host tos mxs Hin Hhit Hne.
  { by apply not_elem_of_nil in Hin. }
  simpl in Hrun. unfold Lock in Hrun. destruct (mxAddrsLock s); [done|]. simpl in Hrun.
  destruct (sendMail_mxs_events o t body (default [] (mxAddrs s !! h)) None (net s))
    as (k & evs1 & Hl1 & _).
  destruct (sendMail_mxs o t body _ None (net s)) as [[e|] n1] eqn:Hmxs; [done|].
  simpl in Hl1.
  pose proof (sendMail_groups_events o body groups (set_net (Unlock (set_lock s true)) n1))
    as (evs2 & Hl2 & _). rewrite Hrun in Hl2. simpl in Hl2.
  apply elem_of_cons in Hin as [[= -> ->]|Hin].
  - rewrite Hhit in Hmxs. simpl in Hmxs.
    destruct (sendMail_mxs_delivered _ _ _ _ _ _ _ Hne Hmxs)
      as (pre & mx & post & n0 & before & ? & ? & ?).
    by exists pre, mx, post, n0, n1, before, evs2.
  - destruct (IH _ _ Hrun host tos mxs Hin Hhit Hne)
      as (pre & mx & post & n0 & n2 & before & after & ? & ? & Hb & ?).
    exists pre, mx, post, n0, n2, (evs1 ++ before), after. simpl in Hb.
    repeat split; try done. by rewrite Hb, Hl1, <- app_assoc.
Qed.

(** C1.  A main-loop delivery is a call of [EmailOutput.sendMail] on the
    plugin that a [Prepare] which returned nil has left, after whatever the
    process did in between.  When it reports the delivery as made, then for
    every group of the plugin the cache holds a candidate list that is not
    empty, and a session of this delivery against one of these candidates,
    with the recipients of the group, succeeded; and the sessions of the
    delivery that succeeded are exactly as many as the groups.  So no group
    is reported as delivered without a successful session, and no group of a
    main-loop delivery has an empty candidate list or none. *)
Theorem C1_group_delivered_only_by_successful_session o s0 o' s1 ops body s' :
  hostport o = "" ->
  Prepare o s0 = Returns (None, o') s1 ->
  EmailOutput_sendMail o' body (execs ops s1) = Returns None s' ->
  let s := execs ops s1 in
  (forall host tos, byHost o' !! host = Some tos ->
     exists mxs pre mx post n1 n2 before after,
       mxAddrs s !! host = Some mxs /\
       mxs = pre ++ mx :: post /\
       sendMail (Host mx +:+ ":25") None (From o') tos body 30 (tlsConfig o') n1 = (None, n2) /\
       log n1 = log (net s) ++ before /\
       log (net s') = log n2 ++ after) /\
  (exists evs, log (net s') = log (net s) ++ evs /\ completed evs = size (byHost o')).
Proof.
  intros Hrelay Hprep Hsend s.
  unfold Prepare in Hprep. rewrite decide_True in Hprep by done. simpl in Hprep.
  destruct (Prepare_groups _ _ None s0) as [err s1'|s1'] eqn:Hgroups; [|done].
  injection Hprep as -> <- ->.
  destruct (Prepare_groups_success _ _ _ _ _ Hgroups) as [_ Hall].
  assert (forall host tos, Prepare_byHost (To o) !! host = Some tos ->
            exists mxs, mxs <> [] /\ mxAddrs s !! host = Some mxs) as Hcand.
  { intros host tos Hin. rewrite Forall_forall in Hall.
    destruct (Hall (host, tos)) as (mxs & Hne & Hhit).
    - rewrite range_byHost_perm. by apply elem_of_map_to_list.
    - exists mxs. split; [done|]. eapply lookup_weaken; [exact Hhit|apply execs_mono]. }
  unfold EmailOutput_sendMail in Hsend. simpl in Hsend.
  rewrite decide_True in Hsend by done. fold s in Hsend.
  pose proof (range_byHost_perm (world (net s)) (Prepare_byHost (To o))) as Hperm.
  split.
  - simpl. intros host tos Hin. destruct (Hcand host tos Hin) as (mxs & Hne & Hhit).
    assert ((host, tos) ∈ range_byHost (world (net s)) (Prepare_byHost (To o))) as Hgroup.
    { rewrite Hperm. by apply elem_of_map_to_list. }
    destruct (sendMail_groups_delivered _ _ _ _ _ Hsend host tos mxs Hgroup Hhit Hne)
      as (pre & mx & post & n1 & n2 & before & after & ? & ? & ? & ?).
    by exists mxs, pre, mx, post, n1, n2, before, after.
  - destruct (sendMail_groups_completed (set_byHost o (Prepare_byHost (To o))) body
                (range_byHost (world (net s)) (Prepare_byHost (To o))) s)
      as (evs & Hl & _ & Heq).
    rewrite Hsend in Hl, Heq. simpl in Hl. exists evs. split; [done|].
    simpl. rewrite <- (length_map_to_list (Prepare_byHost (To o))), <- Hperm.
    apply Heq; [by eexists|]. apply Forall_forall. intros [host tos] Hin.
    rewrite Hperm in Hin. apply elem_of_map_to_list in Hin.
    destruct (Hcand host tos Hin) as (mxs & Hne & Hhit). simpl. by rewrite Hhit.
Qed.

End Delivered.

Lemma C1_main_loop_delivery_witness :
  let o := one_recipient "a@x.com" in
  let o' := one_recipient_prepared "a@x.com" in
  let s1 := final_state (Prepare (Env := third_mx_accepts) o
                           (initial (Env := third_mx_accepts) 0%nat)) in
  let ops := [OpSendMail o' (Some "first")] in
  let body := Some "hello" in
  let s := execs (Env := third_mx_accepts) ops s1 in
  let s' := final_state (EmailOutput_sendMail (Env := third_mx_accepts) o' body s) in
  (forall (host : string) tos, byHost o' !! host = Some tos ->
     exists mxs pre mx post (n1 n2 : Net (Env := third_mx_accepts)) before after,
       mxAddrs s !! host = Some mxs /\
       mxs = pre ++ mx :: post /\
       sendMail (Env := third_mx_accepts) (Host mx +:+ ":25") None (From o') tos body 30
         (tlsConfig o') n1 = (None, n2) /\
       log n1 = log (net s) ++ before /\
       log (net s') = log n2 ++ after) /\
  (exists evs, log (net s') = log (net s) ++ evs /\ completed evs = size (byHost o')).
Proof.
  intros o o' s1 ops body s s'.
  apply (C1_group_delivered_only_by_successful_session (Env := third_mx_accepts)
           o (initial (Env := third_mx_accepts) 0%nat) o' s1 ops body s');
    [reflexivity|vm_compute; reflexivity|vm_compute; reflexivity].
Defined.

(** The run of the witness: the probe and two deliveries, each of which ends
    with the one session that succeeds, against mx3.x.com. *)
Example main_loop_delivery_run :
  let o' := one_recipient_prepared "a@x.com" in
  let s1 := final_state (Prepare (Env := third_mx_accepts) (one_recipient "a@x.com")
                           (initial (Env := third_mx_accepts) 0%nat)) in
  let s := execs (Env := third_mx_accepts) [OpSendMail o' (Some "first")] s1 in
  let r := EmailOutput_sendMail (Env := third_mx_accepts) o' (Some "hello") s in
  r = Returns None (final_state r) /\
  mxAddrs s !! "x.com" = Some x_com_mxs /\
  completed (log (net (final_state r))) = 3%nat /\
  writes (steps (log (net (final_state r)))) = ["first"; "hello"].
Proof. by_running. Qed.
